(** * Response aggregation and accessibility-tree compaction of mcp-playwright

    A shallow embedding of [src/lib/response.js]: the [Response] accumulator,
    its [finish] protocol, [serialize] with [renderTabsJson] and
    [renderTabSnapshotJson], and [filterEmptyGenericElementsIntelligent]
    with its inner closure [hasUsefulContent]. *)

From Stdlib Require Import String Ascii NArith ZArith DecimalString.
From stdpp Require Import base tactics option numbers list.

Set Default Proof Using "Type".
Local Open Scope N_scope.
Local Open Scope nat_scope.

(** ** JavaScript strings

    A JavaScript string is a sequence of UTF-16 code units; a code unit is
    kept as a number of type [N]. *)

Abbreviation jsstring := (list N).

(** The code units of an ASCII literal. *)
Fixpoint js (s : string) : jsstring :=
  match s with
  | EmptyString => []
  | String c s' => N_of_ascii c :: js s'
  end.

(** Membership in an inclusive range of code units. *)
Definition inRange (lo hi c : N) : bool := ((lo <=? c) && (c <=? hi))%N.

(** ECMAScript [LineTerminator]: LF, CR, LS, PS. *)
Definition isLineTerminator (c : N) : bool :=
  ((c =? 10) || (c =? 13) || (c =? 8232) || (c =? 8233))%N.

(** ECMAScript [WhiteSpace] together with [LineTerminator]: the code units
    stripped by [String.prototype.trim] and matched by the class [\s]. *)
Definition isWhiteSpace (c : N) : bool :=
  inRange 9 13 c || (c =? 32)%N || (c =? 160)%N || (c =? 5760)%N
  || inRange 8192 8202 c || (c =? 8232)%N || (c =? 8233)%N
  || (c =? 8239)%N || (c =? 8287)%N || (c =? 12288)%N || (c =? 65279)%N.

(** The class [\w]: ASCII letters, digits and the underscore. *)
Definition isWordChar (c : N) : bool :=
  inRange 97 122 c || inRange 65 90 c || inRange 48 57 c || (c =? 95)%N.

(** [String.prototype.trimStart]. *)
Fixpoint trimStart (s : jsstring) : jsstring :=
  match s with
  | [] => []
  | c :: s' => if isWhiteSpace c then trimStart s' else s
  end.

(** [String.prototype.trimEnd]. *)
Definition trimEnd (s : jsstring) : jsstring := rev (trimStart (rev s)).

(** [String.prototype.trim]. *)
Definition str_trim (s : jsstring) : jsstring := trimEnd (trimStart s).

(** [s.startsWith(p)]. *)
Fixpoint startsWith (s p : jsstring) {struct p} : bool :=
  match p, s with
  | [], _ => true
  | _ :: _, [] => false
  | a :: p', b :: s' => (a =? b)%N && startsWith s' p'
  end.
Arguments startsWith : simpl never.

(** JavaScript truthiness of a string, and of a length. *)
Definition nonEmpty (s : jsstring) : bool :=
  match s with [] => false | _ :: _ => true end.

(** [s.split('\n')]: never the empty array. *)
Fixpoint split (s : jsstring) : list jsstring :=
  match s with
  | [] => [[]]
  | c :: s' =>
      if (c =? 10)%N then [] :: split s'
      else match split s' with
           | l :: ls => (c :: l) :: ls
           | [] => [[c]]
           end
  end.

(** [a.join('\n')]. *)
Fixpoint join (a : list jsstring) : jsstring :=
  match a with
  | [] => []
  | [l] => l
  | l :: a' => l ++ 10%N :: join a'
  end.

(** ** Completions

    A call either returns normally or throws.  [FuelExhausted] is the one
    abrupt completion that belongs to the model and not to JavaScript: it is
    what a fuel-bounded recursion answers when its budget runs out. *)

Inductive exn : Type :=
  | TypeError
  | FuelExhausted
  | DriverError (what : jsstring).

Inductive completion (A : Type) : Type :=
  | Normal (a : A)
  | Throw (e : exn).
Arguments Normal {A} a.
Arguments Throw {A} e.

#[global] Instance completion_ret : MRet completion := @Normal.
#[global] Instance completion_bind : MBind completion := λ A B f m,
  match m with
  | Normal a => f a
  | Throw e => Throw e
  end.

(** ** The accessibility-tree compactor *)

Module Regex.

(** The tail [(.+)$] of the pattern: the rest of the input, when it is not
    empty and holds no line terminator. *)
Definition dotPlusEnd (r : jsstring) : option jsstring :=
  if nonEmpty r && forallb (λ c, negb (isLineTerminator c)) r
  then Some r else None.

(** [\s*(.+)$]: the star is greedy and gives code units back one at a
    time when the tail fails. *)
Fixpoint spacesThenGroup (r : jsstring) : option jsstring :=
  match r with
  | c :: r' =>
      if isWhiteSpace c then
        match spacesThenGroup r' with
        | Some g => Some g
        | None => dotPlusEnd r
        end
      else dotPlusEnd r
  | [] => dotPlusEnd r
  end.

(** [\]:] followed by [\s*(.+)$]. *)
Definition closeThenGroup (r : jsstring) : option jsstring :=
  if startsWith r (js "]:") then spacesThenGroup (drop 2 r) else None.

(** [\w*] followed by the rest, greedy with backtracking. *)
Fixpoint wordStar (r : jsstring) : option jsstring :=
  match r with
  | c :: r' =>
      if isWordChar c then
        match wordStar r' with
        | Some g => Some g
        | None => closeThenGroup r
        end
      else closeThenGroup r
  | [] => closeThenGroup r
  end.

(** [\w+] followed by the rest. *)
Definition wordPlus (r : jsstring) : option jsstring :=
  match r with
  | c :: r' => if isWordChar c then wordStar r' else None
  | [] => None
  end.

(** [s.match(/^- generic \[ref=\w+\]:\s*(.+)$/)], reduced to its first
    capture group: [None] is the [null] of a failed match. *)
Definition matchGeneric (s : jsstring) : option jsstring :=
  if startsWith s (js "- generic [ref=")
  then wordPlus (drop 15 s) else None.

End Regex.

(** [line.length - line.trimStart().length]. *)
Definition indentOf (line : jsstring) : nat :=
  length line - length (trimStart line).

(** [match && match[1].trim().length > 0]. *)
Definition hasTextAfterColon (trimmedLine : jsstring) : bool :=
  match Regex.matchGeneric trimmedLine with
  | Some g => nonEmpty (str_trim g)
  | None => false
  end.

(** The [for] loop of [hasUsefulContent]: [rest] holds [lines[i..]], and
    [recur] is the closure itself, called on the index of a deeper line. *)
Fixpoint descendantLoop (recur : nat → completion bool) (currentIndent : nat)
    (rest : list jsstring) (i : nat) : completion bool :=
  match rest with
  | [] => Normal false
  | nextLine :: rest' =>
      let nextIndent := indentOf nextLine in
      (* If we've gone back to same or less indentation, stop looking *)
      if (nextIndent <=? currentIndent) && nonEmpty (str_trim nextLine)
      then Normal false
      (* If this descendant is useful, then the parent is useful too *)
      else if currentIndent <? nextIndent then
        u ← recur i;
        if u : bool then Normal true
        else descendantLoop recur currentIndent rest' (S i)
      else descendantLoop recur currentIndent rest' (S i)
  end.

(** The closure [hasUsefulContent(lineIndex)] over the array [lines].
    It calls itself only on later indices; [fuel] bounds the depth of these
    calls.  Reading [lines[lineIndex]] past the end gives [undefined], whose
    [trim] throws. *)
Fixpoint hasUsefulContent (fuel : nat) (lines : list jsstring)
    (lineIndex : nat) : completion bool :=
  match fuel with
  | 0 => Throw FuelExhausted
  | S fuel' =>
      match lines !! lineIndex with
      | None => Throw TypeError
      | Some line =>
          let trimmedLine := str_trim line in
          (* If it's not a generic element, it's useful *)
          if negb (startsWith trimmedLine (js "- generic [ref="))
          then Normal (nonEmpty trimmedLine)
          (* If it's a generic with text after the colon, it's useful *)
          else if hasTextAfterColon trimmedLine then Normal true
          (* If it's an empty generic, check if any descendant is useful *)
          else
            descendantLoop (hasUsefulContent fuel' lines) (indentOf line)
              (drop (S lineIndex) lines) (S lineIndex)
      end
  end.

(** The filtering loop of [filterEmptyGenericElementsIntelligent]:
    [rest] holds [lines[i..]], [result] is the array built so far. *)
Fixpoint filterLoop (lines rest : list jsstring) (i : nat)
    (result : list jsstring) : completion (list jsstring) :=
  match rest with
  | [] => Normal result
  | line :: rest' =>
      keep ← (if negb (nonEmpty (str_trim line)) then Normal true
              else hasUsefulContent (length lines) lines i);
      filterLoop lines rest' (S i)
        (if keep : bool then result ++ [line] else result)
  end.

Definition filterEmptyGenericElementsIntelligent (ariaSnapshot : jsstring)
    : completion jsstring :=
  let lines := split ariaSnapshot in
  result ← filterLoop lines lines 0 [];
  Normal (join result).

(** A line made of an ASCII text, a quoted name and a second ASCII text. *)
Definition quoted (before name after : string) : jsstring :=
  js before ++ 34%N :: js name ++ 34%N :: js after.

(** The first test snapshot of [src/test_filter.js]. *)
Definition testSnapshot : jsstring := join [
  js "- generic [ref=e1]: ";
  js "  - generic [ref=e2]: ";
  js "    - generic [ref=e3]: Sign in to Open WebUI";
  js "    - generic [ref=e4]: ";
  js "      - generic [ref=e5]: ";
  js "        - generic [ref=e6]: ";
  js "          - generic [ref=e7]: Email";
  quoted "          - textbox " "Email" " [ref=e8]";
  js "          - generic [ref=e9]: ";
  js "            - generic [ref=e10]: ";
  js "        - generic [ref=e11]: Password";
  quoted "        - textbox " "Password" " [ref=e12]";
  js "  - generic [ref=e13]: ";
  js "    - generic [ref=e14]: ";
  js "      - generic [ref=e15]: ";
  quoted "  - button " "Sign In" " [ref=e16]";
  js "- generic [ref=e17]: ";
  js "  - generic [ref=e18]: ";
  js "- footer [ref=e19]: Copyright 2024"
].

(** The lines the filter keeps of [testSnapshot]. *)
Definition testFiltered : jsstring := join [
  js "- generic [ref=e1]: ";
  js "  - generic [ref=e2]: ";
  js "    - generic [ref=e3]: Sign in to Open WebUI";
  js "    - generic [ref=e4]: ";
  js "      - generic [ref=e5]: ";
  js "        - generic [ref=e6]: ";
  js "          - generic [ref=e7]: Email";
  quoted "          - textbox " "Email" " [ref=e8]";
  js "        - generic [ref=e11]: Password";
  quoted "        - textbox " "Password" " [ref=e12]";
  quoted "  - button " "Sign In" " [ref=e16]";
  js "- footer [ref=e19]: Copyright 2024"
].

(** *** Vocabulary of the compactor *)

(** A blank line: nothing is left of it after trimming. *)
Definition isBlank (line : jsstring) : bool := negb (nonEmpty (str_trim line)).

(** A bare structural node, as [hasUsefulContent] classifies one: the
    trimmed line starts with the generic marker and the pattern finds no
    text after the label separator. *)
Definition bareNode (line : jsstring) : bool :=
  startsWith (str_trim line) (js "- generic [ref=")
  && negb (hasTextAfterColon (str_trim line)).

(** The verdict of [hasUsefulContent] on the line at index [j], read as a
    boolean: an abrupt completion is not a verdict. *)
Definition usefulAt (lines : list jsstring) (j : nat) : bool :=
  match hasUsefulContent (length lines) lines j with
  | Normal u => u
  | Throw _ => false
  end.

(** Whether the filtering loop pushes the line at index [i]. *)
Definition keepLine (lines : list jsstring) (i : nat) : bool :=
  match lines !! i with
  | Some line => isBlank line || usefulAt lines i
  | None => false
  end.





(** *** The compactor read on the lines that follow

    [hasUsefulContent] looks at [lines[lineIndex]] and at later lines only,
    so its verdict is a function of the line and of the lines after it. *)

Fixpoint scanRest (currentIndent : nat) (rest : list jsstring) : bool :=
  match rest with
  | [] => false
  | nextLine :: rest' =>
      if (indentOf nextLine <=? currentIndent) && nonEmpty (str_trim nextLine)
      then false
      else if (currentIndent <? indentOf nextLine)
              && (if bareNode nextLine then scanRest (indentOf nextLine) rest'
                  else nonEmpty (str_trim nextLine))
      then true
      else scanRest currentIndent rest'
  end.

Definition usefulLine (line : jsstring) (rest : list jsstring) : bool :=
  if bareNode line then scanRest (indentOf line) rest
  else nonEmpty (str_trim line).

Fixpoint compactLines (lines : list jsstring) : list jsstring :=
  match lines with
  | [] => []
  | line :: rest =>
      if isBlank line || usefulLine line rest
      then line :: compactLines rest
      else compactLines rest
  end.

(** ** The objects around the accumulator *)

(** A JSON value, as far as the [result] and [code] fields of the payload
    can hold one. *)
Inductive jsval : Type :=
  | JNull
  | JString (s : jsstring)
  | JStrings (a : list jsstring).

Module Tab.
(** Modelled from the spec: a tab handle of the driver, reduced to what
    [renderTabsJson] reads of it: the cached display title
    ([tab.lastTitle()]), the live URL ([tab.page.url()]) and the answer of
    [tab.isCurrentTab()]. *)
Record t : Type := { lastTitle : jsstring; url : jsstring; isCurrentTab : bool }.
End Tab.

Module Download.
(** An entry of [tabSnapshot.downloads]; [suggestedFilename] is the answer
    of [entry.download.suggestedFilename()]. *)
Record t : Type :=
  { suggestedFilename : jsstring; outputFile : jsstring; finished : bool }.
End Download.

Module TabSnapshot.
(** The value [captureSnapshot()] resolves to.  A console message is kept
    as the text its [toString()] gives. *)
Record t (ModalState : Type) : Type := {
  url : jsstring;
  title : jsstring;
  ariaSnapshot : jsstring;
  consoleMessages : list jsstring;
  downloads : list Download.t;
  modalStates : list ModalState
}.
Arguments url {_} _.
Arguments title {_} _.
Arguments ariaSnapshot {_} _.
Arguments consoleMessages {_} _.
Arguments downloads {_} _.
Arguments modalStates {_} _.
End TabSnapshot.

Module Image.
Record t : Type := { data : list N; contentType : jsstring }.
End Image.

Module Config.
Record t : Type := { imageResponses : jsstring }.
End Config.

Module Context.
(** Modelled from the spec: the context of the driver layer, reduced to the
    answers of [tabs()] and [currentTab()] and to [config]. *)
Record t : Type :=
  { tabs : list Tab.t; currentTab : option Tab.t; config : Config.t }.

(** Modelled from the spec: [currentTabOrDie()] fails loudly when there is
    no current tab. *)
Definition currentTabOrDie (c : t) : completion Tab.t :=
  match currentTab c with
  | Some tab => Normal tab
  | None => Throw (DriverError (js "no current tab"))
  end.

Definition with_tabs (ts : list Tab.t) (c : t) : t :=
  {| tabs := ts; currentTab := currentTab c; config := config c |}.
End Context.

(** The collaborators the accumulator calls and does not define: the opaque
    types of tool arguments and modal-state descriptors, the base64 text of
    a buffer ([data.toString('base64')]), and the two asynchronous
    operations of a tab, each of which resolves or rejects. *)
Class Driver : Type := {
  ToolArgs : Type;
  ModalState : Type;
  base64 : list N → jsstring;
  captureSnapshot : Tab.t → completion (TabSnapshot.t ModalState);
  updateTitle : Tab.t → completion Tab.t
}.

(** ** The payload *)

Module TabJson.
Record t : Type :=
  { index : nat; title : jsstring; url : jsstring; isCurrent : bool }.
End TabJson.

Module TabsJson.
Record t : Type := { message : option jsstring; tabs : list TabJson.t }.
End TabsJson.

Module DownloadJson.
Record t : Type :=
  { filename : jsstring; outputFile : jsstring; finished : bool }.
End DownloadJson.

Module PageState.
(** [snapshotData]: the two optional members are absent ([None]) unless
    [renderTabSnapshotJson] sets them. *)
Record t : Type := {
  url : jsstring;
  title : jsstring;
  ariaSnapshot : jsstring;
  consoleMessages : option (list jsstring);
  downloads : option (list DownloadJson.t)
}.
End PageState.

Module ImageJson.
Record t : Type := { type : jsstring; data : jsstring; mimeType : jsstring }.
End ImageJson.

Module JsonResponse.
Record t `{Driver} : Type := {
  toolName : jsstring;
  toolArgs : ToolArgs;
  isError : option bool;
  result : jsval;
  code : jsval;
  tabs : option TabsJson.t;
  pageState : option PageState.t;
  modalStates : option (list ModalState);
  images : list ImageJson.t
}.

Section Setters.
Context `{Driver}.

Definition with_tabs (v : option TabsJson.t) (j : t) : t :=
  {| toolName := toolName j; toolArgs := toolArgs j; isError := isError j;
     result := result j; code := code j; tabs := v;
     pageState := pageState j; modalStates := modalStates j;
     images := images j |}.

Definition with_pageState (v : option PageState.t) (j : t) : t :=
  {| toolName := toolName j; toolArgs := toolArgs j; isError := isError j;
     result := result j; code := code j; tabs := tabs j;
     pageState := v; modalStates := modalStates j; images := images j |}.

Definition with_modalStates (v : option (list ModalState)) (j : t) : t :=
  {| toolName := toolName j; toolArgs := toolArgs j; isError := isError j;
     result := result j; code := code j; tabs := tabs j;
     pageState := pageState j; modalStates := v; images := images j |}.

Definition with_images (v : list ImageJson.t) (j : t) : t :=
  {| toolName := toolName j; toolArgs := toolArgs j; isError := isError j;
     result := result j; code := code j; tabs := tabs j;
     pageState := pageState j; modalStates := modalStates j; images := v |}.
End Setters.
End JsonResponse.

Module Wrapper.
(** What [serialize] returns: [{ content, isError }]. *)
Record t `{Driver} : Type :=
  { content : JsonResponse.t; isError : option bool }.
End Wrapper.

(** ** Rendering helpers of [response.js] *)

(** [trim(text, maxLength)]. *)
Definition trim (text : jsstring) (maxLength : nat) : jsstring :=
  if length text <=? maxLength then text
  else take maxLength text ++ js "...".

(** The placeholder message of a session without tabs. *)
Definition noOpenTabsMessage : jsstring :=
  quoted "No open tabs. Use the " "browser_navigate"
         " tool to navigate to a page first.".

(** [renderTabsJson(tabs, force)]. *)
Definition renderTabsJson (tabs : list Tab.t) (force : bool)
    : option TabsJson.t :=
  if (length tabs =? 1) && negb force then None
  else if length tabs =? 0 then
    Some {| TabsJson.message := Some noOpenTabsMessage;
            TabsJson.tabs := [] |}
  else
    Some {| TabsJson.message := None;
            TabsJson.tabs :=
              imap (λ index tab,
                      {| TabJson.index := index;
                         TabJson.title := Tab.lastTitle tab;
                         TabJson.url := Tab.url tab;
                         TabJson.isCurrent := Tab.isCurrentTab tab |}) tabs |}.

(** [renderTabSnapshotJson(tabSnapshot)].  The argument is a JavaScript
    value that may be [undefined], and reading a member of [undefined]
    throws. *)
Definition renderTabSnapshotJson {ModalState : Type}
    (tabSnapshot : option (TabSnapshot.t ModalState))
    : completion PageState.t :=
  match tabSnapshot with
  | None => Throw TypeError
  | Some ts =>
      aria ← filterEmptyGenericElementsIntelligent (TabSnapshot.ariaSnapshot ts);
      let snapshotData :=
        {| PageState.url := TabSnapshot.url ts;
           PageState.title := TabSnapshot.title ts;
           PageState.ariaSnapshot := aria;
           PageState.consoleMessages := None;
           PageState.downloads := None |} in
      let snapshotData :=
        if 0 <? length (TabSnapshot.consoleMessages ts) then
          {| PageState.url := PageState.url snapshotData;
             PageState.title := PageState.title snapshotData;
             PageState.ariaSnapshot := PageState.ariaSnapshot snapshotData;
             PageState.consoleMessages :=
               Some (map (λ message, trim message 100)
                         (TabSnapshot.consoleMessages ts));
             PageState.downloads := PageState.downloads snapshotData |}
        else snapshotData in
      let snapshotData :=
        if 0 <? length (TabSnapshot.downloads ts) then
          {| PageState.url := PageState.url snapshotData;
             PageState.title := PageState.title snapshotData;
             PageState.ariaSnapshot := PageState.ariaSnapshot snapshotData;
             PageState.consoleMessages := PageState.consoleMessages snapshotData;
             PageState.downloads :=
               Some (map (λ entry,
                            {| DownloadJson.filename :=
                                 Download.suggestedFilename entry;
                               DownloadJson.outputFile :=
                                 Download.outputFile entry;
                               DownloadJson.finished :=
                                 Download.finished entry |})
                         (TabSnapshot.downloads ts)) |}
        else snapshotData in
      Normal snapshotData
  end.

(** ** The accumulator *)

Module Response.

(** The fields of the class, but for [_context]: that one is a reference
    to the shared context object, which lives next to the accumulator in
    the [World] below.  [_tabSnapshot] and [_isError] have no initialiser
    and start out [undefined]. *)
Record t `{Driver} : Type := {
  _result : list jsstring;
  _code : list jsstring;
  _images : list Image.t;
  _includeSnapshot : bool;
  _includeTabs : bool;
  _tabSnapshot : option (TabSnapshot.t ModalState);
  toolName : jsstring;
  toolArgs : ToolArgs;
  _isError : option bool
}.

Section Methods.
Context `{Driver}.

(** The store a method runs in: the accumulator and the context its
    [_context] field refers to. *)
Record World : Type := { accumulator : t; shared : Context.t }.

(** A method call: it may change the store, and it returns or throws;
    what it wrote before throwing stays written. *)
Definition M (A : Type) : Type := World → World * completion A.

Definition ret {A} (a : A) : M A := λ w, (w, Normal a).

Definition bind {A B} (m : M A) (f : A → M B) : M B := λ w,
  match m w with
  | (w', Normal a) => f a w'
  | (w', Throw e) => (w', Throw e)
  end.

Definition gets {A} (f : World → A) : M A := λ w, (w, Normal (f w)).

Definition modifyThis (f : t → t) : M unit := λ w,
  ({| accumulator := f (accumulator w); shared := shared w |}, Normal ()).

Definition modifyContext (f : Context.t → Context.t) : M unit := λ w,
  ({| accumulator := accumulator w; shared := f (shared w) |}, Normal ()).

(** Awaiting, or calling, something that resolves or rejects. *)
Definition lift {A} (c : completion A) : M A := λ w, (w, c).

#[global] Instance M_ret : MRet M := @ret.
#[global] Instance M_bind : MBind M := λ A B f m, bind m f.

(** [new Response(context, toolName, toolArgs)]. *)
Definition new (context : Context.t) (toolName : jsstring)
    (toolArgs : ToolArgs) : World :=
  {| accumulator := {| _result := []; _code := []; _images := [];
                _includeSnapshot := false; _includeTabs := false;
                _tabSnapshot := None;
                toolName := toolName; toolArgs := toolArgs;
                _isError := None |};
     shared := context |}.

Definition set_result (v : list jsstring) (r : t) : t :=
  {| _result := v; _code := _code r; _images := _images r;
     _includeSnapshot := _includeSnapshot r;
     _includeTabs := _includeTabs r; _tabSnapshot := _tabSnapshot r;
     toolName := toolName r; toolArgs := toolArgs r;
     _isError := _isError r |}.

Definition set_code (v : list jsstring) (r : t) : t :=
  {| _result := _result r; _code := v; _images := _images r;
     _includeSnapshot := _includeSnapshot r;
     _includeTabs := _includeTabs r; _tabSnapshot := _tabSnapshot r;
     toolName := toolName r; toolArgs := toolArgs r;
     _isError := _isError r |}.

Definition set_images (v : list Image.t) (r : t) : t :=
  {| _result := _result r; _code := _code r; _images := v;
     _includeSnapshot := _includeSnapshot r;
     _includeTabs := _includeTabs r; _tabSnapshot := _tabSnapshot r;
     toolName := toolName r; toolArgs := toolArgs r;
     _isError := _isError r |}.

Definition set_includeSnapshot (v : bool) (r : t) : t :=
  {| _result := _result r; _code := _code r; _images := _images r;
     _includeSnapshot := v;
     _includeTabs := _includeTabs r; _tabSnapshot := _tabSnapshot r;
     toolName := toolName r; toolArgs := toolArgs r;
     _isError := _isError r |}.

Definition set_includeTabs (v : bool) (r : t) : t :=
  {| _result := _result r; _code := _code r; _images := _images r;
     _includeSnapshot := _includeSnapshot r;
     _includeTabs := v; _tabSnapshot := _tabSnapshot r;
     toolName := toolName r; toolArgs := toolArgs r;
     _isError := _isError r |}.

Definition set_tabSnapshot (v : option (TabSnapshot.t ModalState))
    (r : t) : t :=
  {| _result := _result r; _code := _code r; _images := _images r;
     _includeSnapshot := _includeSnapshot r;
     _includeTabs := _includeTabs r; _tabSnapshot := v;
     toolName := toolName r; toolArgs := toolArgs r;
     _isError := _isError r |}.

Definition set_isError (v : option bool) (r : t) : t :=
  {| _result := _result r; _code := _code r; _images := _images r;
     _includeSnapshot := _includeSnapshot r;
     _includeTabs := _includeTabs r; _tabSnapshot := _tabSnapshot r;
     toolName := toolName r; toolArgs := toolArgs r;
     _isError := v |}.

Definition addResult (result : jsstring) : M unit :=
  modifyThis (λ r, set_result (_result r ++ [result]) r).

Definition addError (error : jsstring) : M unit :=
  modifyThis (λ r, set_result (_result r ++ [error]) r);;
  modifyThis (set_isError (Some true)).

Definition isError : M (option bool) := gets (λ w, _isError (accumulator w)).

Definition result : M jsstring := gets (λ w, join (_result (accumulator w))).

Definition addCode (code : jsstring) : M unit :=
  modifyThis (λ r, set_code (_code r ++ [code]) r).

Definition code : M jsstring := gets (λ w, join (_code (accumulator w))).

Definition addImage (image : Image.t) : M unit :=
  modifyThis (λ r, set_images (_images r ++ [image]) r).

Definition images : M (list Image.t) := gets (λ w, _images (accumulator w)).

Definition setIncludeSnapshot : M unit :=
  modifyThis (set_includeSnapshot true).

Definition setIncludeTabs : M unit :=
  modifyThis (set_includeTabs true).

(** [for (const tab of this._context.tabs()) await tab.updateTitle()]:
    [rest] holds the tabs from index [i] on; a refreshed tab replaces the
    old one in the context. *)
Fixpoint updateTitles (rest : list Tab.t) (i : nat) : M unit :=
  match rest with
  | [] => ret ()
  | tab :: rest' =>
      tab' ← lift (updateTitle tab);
      modifyContext (λ c,
        Context.with_tabs (<[i := tab']> (Context.tabs c)) c);;
      updateTitles rest' (S i)
  end.

Definition finish : M unit :=
  this ← gets accumulator;
  context ← gets shared;
  (if _includeSnapshot this
      && bool_decide (is_Some (Context.currentTab context))
   then
     tab ← lift (Context.currentTabOrDie context);
     snapshot ← lift (captureSnapshot tab);
     modifyThis (set_tabSnapshot (Some snapshot))
   else ret ());;
  context ← gets shared;
  updateTitles (Context.tabs context) 0.

Definition tabSnapshot : M (option (TabSnapshot.t ModalState)) :=
  gets (λ w, _tabSnapshot (accumulator w)).

(** [o.modalStates] on a value that may be [undefined]. *)
Definition getModalStates (o : option (TabSnapshot.t ModalState))
    : completion (list ModalState) :=
  match o with
  | Some ts => Normal (TabSnapshot.modalStates ts)
  | None => Throw TypeError
  end.

(** The image loop of [serialize]. *)
Fixpoint pushImages (rest : list Image.t) (acc : list ImageJson.t)
    : list ImageJson.t :=
  match rest with
  | [] => acc
  | image :: rest' =>
      pushImages rest'
        (acc ++ [ {| ImageJson.type := js "image";
                     ImageJson.data := base64 (Image.data image);
                     ImageJson.mimeType := Image.contentType image |} ])
  end.

Definition serialize : M Wrapper.t :=
  this ← gets accumulator;
  context ← gets shared;
  let jsonResponse :=
    {| JsonResponse.toolName := toolName this;
       JsonResponse.toolArgs := toolArgs this;
       JsonResponse.isError := _isError this;
       JsonResponse.result :=
         if 0 <? length (_result this) then JStrings (_result this)
         else JNull;
       JsonResponse.code :=
         if 0 <? length (_code this) then JStrings (_code this)
         else JNull;
       JsonResponse.tabs := None;
       JsonResponse.pageState := None;
       JsonResponse.modalStates := None;
       JsonResponse.images := [] |} in
  (* Add tabs information *)
  let jsonResponse :=
    if _includeSnapshot this || _includeTabs this then
      match renderTabsJson (Context.tabs context) (_includeTabs this) with
      | Some tabsData => JsonResponse.with_tabs (Some tabsData) jsonResponse
      | None => jsonResponse
      end
    else jsonResponse in
  (* Add snapshot and modal states information *)
  jsonResponse ←
    (if match _tabSnapshot this with
        | Some ts => 0 <? length (TabSnapshot.modalStates ts)
        | None => false
        end
     then
       modalStates ← lift (getModalStates (_tabSnapshot this));
       ret (JsonResponse.with_modalStates (Some modalStates) jsonResponse)
     else if bool_decide (is_Some (_tabSnapshot this)) then
       pageState ← lift (renderTabSnapshotJson (_tabSnapshot this));
       ret (JsonResponse.with_pageState (Some pageState) jsonResponse)
     else ret jsonResponse);
  (* Add image attachments *)
  let jsonResponse :=
    if negb (bool_decide
               (Config.imageResponses (Context.config context) = js "omit"))
    then JsonResponse.with_images
           (pushImages (_images this) (JsonResponse.images jsonResponse))
           jsonResponse
    else jsonResponse in
  ret {| Wrapper.content := jsonResponse;
         Wrapper.isError := _isError this |}.

(** A call of one of the synchronous writers of the accumulator. *)
Inductive call : Type :=
  | AddResult (result : jsstring)
  | AddError (error : jsstring)
  | AddCode (code : jsstring)
  | AddImage (image : Image.t)
  | SetIncludeSnapshot
  | SetIncludeTabs.

Definition invoke (c : call) : M unit :=
  match c with
  | AddResult r => addResult r
  | AddError e => addError e
  | AddCode c => addCode c
  | AddImage i => addImage i
  | SetIncludeSnapshot => setIncludeSnapshot
  | SetIncludeTabs => setIncludeTabs
  end.

(** The calls of a tool handler, one after the other. *)
Fixpoint invokeAll (cs : list call) : M unit :=
  match cs with
  | [] => ret ()
  | c :: cs' => invoke c;; invokeAll cs'
  end.

End Methods.
End Response.

(** ** Sample inputs *)

(** A line holds no line feed. *)
Definition noNewline (l : jsstring) : Prop := 10%N ∉ l.

(** Three nested bare structural nodes and nothing else. *)
Definition threeBareLines : list jsstring := [
  js "- generic [ref=e1]: ";
  js "  - generic [ref=e2]: ";
  js "    - generic [ref=e3]: "
].



(** The claim that the [result] and [code] fields hold the joined text of
    their log, read on one store. *)
Definition logFieldsJoined `{Driver} (w : Response.World) : Prop :=
  ∀ p, Response.serialize w = (w, Normal p) →
    JsonResponse.result (Wrapper.content p)
    = (if 0 <? length (Response._result (Response.accumulator w))
       then JString (join (Response._result (Response.accumulator w)))
       else JNull) ∧
    JsonResponse.code (Wrapper.content p)
    = (if 0 <? length (Response._code (Response.accumulator w))
       then JString (join (Response._code (Response.accumulator w)))
       else JNull).

(** The base64 alphabet. *)
Definition base64Char (i : N) : N :=
  if (i <? 26)%N then (65 + i)%N
  else if (i <? 52)%N then (97 + (i - 26))%N
  else if (i <? 62)%N then (48 + (i - 52))%N
  else if (i =? 62)%N then 43%N else 47%N.

(** Base64 text of a sequence of bytes, with padding. *)
Fixpoint base64Text (bytes : list N) : jsstring :=
  match bytes with
  | [] => []
  | [a] =>
      [base64Char (a / 4); base64Char (a mod 4 * 16); 61; 61]%N
  | [a; b] =>
      [base64Char (a / 4); base64Char (a mod 4 * 16 + b / 16);
       base64Char (b mod 16 * 4); 61]%N
  | a :: b :: c :: rest =>
      [base64Char (a / 4); base64Char (a mod 4 * 16 + b / 16);
       base64Char (b mod 16 * 4 + c / 64); base64Char (c mod 64)]%N
      ++ base64Text rest
  end.

(** A driver for the sample runs: arguments and modal states are texts, a
    capture answers with the first test snapshot, and a title refresh leaves
    the tab as it is. *)
Definition sampleDriver : Driver := {|
  ToolArgs := jsstring;
  ModalState := jsstring;
  base64 := base64Text;
  captureSnapshot := λ tab,
    Normal {| TabSnapshot.url := Tab.url tab;
              TabSnapshot.title := Tab.lastTitle tab;
              TabSnapshot.ariaSnapshot := testSnapshot;
              TabSnapshot.consoleMessages := [];
              TabSnapshot.downloads := [];
              TabSnapshot.modalStates := [] |};
  updateTitle := λ tab, Normal tab
|}.

Definition sampleTab : Tab.t :=
  {| Tab.lastTitle := js "Open WebUI";
     Tab.url := js "http://localhost:3000/";
     Tab.isCurrentTab := true |}.

Definition sampleConfig : Config.t :=
  {| Config.imageResponses := js "allow" |}.

(** A session with one tab, which is the current one. *)
Definition oneTabContext : Context.t :=
  {| Context.tabs := [sampleTab]; Context.currentTab := Some sampleTab;
     Context.config := sampleConfig |}.

(** A session without tabs. *)
Definition noTabContext : Context.t :=
  {| Context.tabs := []; Context.currentTab := None;
     Context.config := sampleConfig |}.

(** A fresh accumulator of the snapshot tool in the one-tab session. *)
Definition freshWorld : @Response.World sampleDriver :=
  @Response.new sampleDriver oneTabContext (js "browser_snapshot") (js "{}").

(** A fresh accumulator of the tab-list tool in the session without tabs. *)
Definition noTabWorld : @Response.World sampleDriver :=
  @Response.new sampleDriver noTabContext (js "browser_tab_list") (js "{}").

(** The store after a tool wrote two result lines. *)
Definition twoLinesWorld : @Response.World sampleDriver :=
  (Response.invokeAll
     [Response.AddResult (js "a"); Response.AddResult (js "b")]
     freshWorld).1.

(** A snapshot taken while a dialog is open. *)
Definition dialogSnapshot : TabSnapshot.t jsstring :=
  {| TabSnapshot.url := js "http://localhost:3000/";
     TabSnapshot.title := js "Open WebUI";
     TabSnapshot.ariaSnapshot := testSnapshot;
     TabSnapshot.consoleMessages := [js "ready"];
     TabSnapshot.downloads := [];
     TabSnapshot.modalStates := [js "alert dialog"] |}.

(** The store of an accumulator that holds [dialogSnapshot]. *)
Definition dialogWorld : @Response.World sampleDriver :=
  (@Response.modifyThis sampleDriver
     (@Response.set_tabSnapshot sampleDriver (Some dialogSnapshot))
     freshWorld).1.

(** The tab-list tool asked for a tabs listing, with no tab open. *)
Definition tabListWorld : @Response.World sampleDriver :=
  (@Response.setIncludeTabs sampleDriver noTabWorld).1.

(** The snapshot tool asked for a snapshot, with one tab open. *)
Definition snapshotWorld : @Response.World sampleDriver :=
  (@Response.setIncludeSnapshot sampleDriver freshWorld).1.

(** The store of [freshWorld] when the context reports no current tab. *)
Definition detachedWorld : @Response.World sampleDriver :=
  {| Response.accumulator := Response.accumulator freshWorld;
     Response.shared :=
       {| Context.tabs := [sampleTab]; Context.currentTab := None;
          Context.config := sampleConfig |} |}.

(** What the sample driver captures of [sampleTab]. *)
Definition sampleSnapshot : TabSnapshot.t jsstring :=
  {| TabSnapshot.url := js "http://localhost:3000/";
     TabSnapshot.title := js "Open WebUI";
     TabSnapshot.ariaSnapshot := testSnapshot;
     TabSnapshot.consoleMessages := [];
     TabSnapshot.downloads := [];
     TabSnapshot.modalStates := [] |}.

(** ** Vocabulary of the accumulator's logs *)

(** The lines a run of calls appends to the result log, in call order. *)
Definition resultArgs `{Driver} (cs : list Response.call) : list jsstring :=
  omap (λ c, match c with
             | Response.AddResult r => Some r
             | Response.AddError e => Some e
             | _ => None
             end) cs.

(** The lines a run of calls appends to the code log. *)
Definition codeArgs `{Driver} (cs : list Response.call) : list jsstring :=
  omap (λ c, match c with Response.AddCode c => Some c | _ => None end) cs.

(** The images a run of calls appends. *)
Definition imageArgs `{Driver} (cs : list Response.call) : list Image.t :=
  omap (λ c, match c with Response.AddImage i => Some i | _ => None end) cs.

Definition isAddError `{Driver} (c : Response.call) : bool :=
  match c with Response.AddError _ => true | _ => false end.

Definition isSetIncludeSnapshot `{Driver} (c : Response.call) : bool :=
  match c with Response.SetIncludeSnapshot => true | _ => false end.

Definition isSetIncludeTabs `{Driver} (c : Response.call) : bool :=
  match c with Response.SetIncludeTabs => true | _ => false end.

(** The payload entry of one image. *)
Definition imageJson `{Driver} (image : Image.t) : ImageJson.t :=
  {| ImageJson.type := js "image";
     ImageJson.data := base64 (Image.data image);
     ImageJson.mimeType := Image.contentType image |}.

(** The payload entry of the tab at position [index]. *)
Definition tabJson (index : nat) (tab : Tab.t) : TabJson.t :=
  {| TabJson.index := index;
     TabJson.title := Tab.lastTitle tab;
     TabJson.url := Tab.url tab;
     TabJson.isCurrent := Tab.isCurrentTab tab |}.

(** The payload entry of one download. *)
Definition downloadJson (entry : Download.t) : DownloadJson.t :=
  {| DownloadJson.filename := Download.suggestedFilename entry;
     DownloadJson.outputFile := Download.outputFile entry;
     DownloadJson.finished := Download.finished entry |}.

(** The trimmed line is a generic line with text after its colon: the marker,
    a non-empty run of word characters, the closing bracket and colon, and a
    rest that, past its leading white space, is not empty and holds no line
    terminator. *)
Definition genericWithText (t : jsstring) : Prop :=
  ∃ ref rest : jsstring,
    t = js "- generic [ref=" ++ ref ++ js "]:" ++ rest ∧
    ref ≠ [] ∧ Forall (λ c, isWordChar c = true) ref ∧
    trimStart rest ≠ [] ∧
    Forall (λ c, isLineTerminator c = false) (trimStart rest).

(** A generic line with text, a bare line under it, and a sibling. *)
Definition siblingLines : list jsstring := [
  js "- generic [ref=e1]: ";
  js "- generic [ref=e2]: Title";
  js "  - generic [ref=e3]: "
].


(** ** More sample stores *)

(** A driver whose captures are rejected and whose title refresh fails on
    tabs that are not current. *)
Definition failingDriver : Driver := {|
  ToolArgs := jsstring;
  ModalState := jsstring;
  base64 := base64Text;
  captureSnapshot := λ tab, Throw (DriverError (js "page crashed"));
  updateTitle := λ tab,
    if Tab.isCurrentTab tab
    then Normal {| Tab.lastTitle := js "Refreshed"; Tab.url := Tab.url tab;
                   Tab.isCurrentTab := true |}
    else Throw (DriverError (js "tab closed"))
|}.

Definition backgroundTab : Tab.t :=
  {| Tab.lastTitle := js "Docs";
     Tab.url := js "http://localhost:3000/docs";
     Tab.isCurrentTab := false |}.

Definition twoTabContext : Context.t :=
  {| Context.tabs := [sampleTab; backgroundTab];
     Context.currentTab := Some sampleTab;
     Context.config := sampleConfig |}.

(** A snapshot was requested under the failing driver. *)
Definition crashWorld : @Response.World failingDriver :=
  (@Response.setIncludeSnapshot failingDriver
     (@Response.new failingDriver twoTabContext (js "browser_click")
        (js "{}"))).1.


(** Two images were attached, under a configuration that omits images. *)
Definition omitWorld : @Response.World sampleDriver :=
  (Response.invokeAll
     [Response.AddImage {| Image.data := [77; 97; 110]%N;
                           Image.contentType := js "image/png" |};
      Response.AddImage {| Image.data := [77; 97]%N;
                           Image.contentType := js "image/jpeg" |}]
     (@Response.new sampleDriver
        {| Context.tabs := [sampleTab]; Context.currentTab := Some sampleTab;
           Context.config := {| Config.imageResponses := js "omit" |} |}
        (js "browser_take_screenshot") (js "{}"))).1.

(** A failed click: the tool recorded an error and asked for a snapshot. *)
Definition failedClickWorld : @Response.World sampleDriver :=
  (Response.invokeAll
     [Response.SetIncludeSnapshot;
      Response.AddError (js "Failed to click: timeout")]
     freshWorld).1.

(** One image was attached under a configuration that keeps images. *)
Definition oneImageWorld : @Response.World sampleDriver :=
  (Response.invokeAll
     [Response.AddImage {| Image.data := [77; 97; 110]%N;
                           Image.contentType := js "image/png" |}]
     freshWorld).1.

(** The store after the finish protocol of [snapshotWorld]. *)
Definition capturedWorld : @Response.World sampleDriver :=
  (@Response.finish sampleDriver snapshotWorld).1.


(** ** Tool handlers: what they share *)

(** [String(n)] for a non-negative integer. *)
Definition showNat (n : nat) : jsstring :=
  js (NilEmpty.string_of_uint (Nat.to_uint n)).

(** [new Error(message)], thrown. *)
Definition Error (message : jsstring) : exn := DriverError message.

(** JavaScript truthiness of an optional string parameter. *)
Definition truthy (o : option jsstring) : bool :=
  match o with
  | Some (_ :: _) => true
  | _ => false
  end.

(** The string of a truthy optional string, [''] otherwise: [o || '']. *)
Definition orEmpty (o : option jsstring) : jsstring :=
  match o with
  | Some s => s
  | None => []
  end.

(** [s.includes(sub)]. *)
Fixpoint includes (s sub : jsstring) : bool :=
  startsWith s sub
  || match s with
     | [] => false
     | _ :: s' => includes s' sub
     end.

(** [a.slice(0, end)] for an integer [end]: a negative [end] counts from the
    end of the array. *)
Definition slice0 {A} (a : list A) (end_ : Z) : list A :=
  if (end_ <? 0)%Z then take (Z.to_nat (Z.max (Z.of_nat (length a) + end_) 0)) a
  else take (Z.to_nat end_) a.

(** [a.join(sep)]. *)
Fixpoint joinWith (sep : jsstring) (a : list jsstring) : jsstring :=
  match a with
  | [] => []
  | [l] => l
  | l :: a' => l ++ sep ++ joinWith sep a'
  end.

(** What the handlers use of the JavaScript runtime and do not define: case
    mapping, the text of a caught value ([String(error)], as a template
    prints it) and its [message], numbers with their truthiness and their
    text, and [JSON.stringify] on a string. *)
Class Runtime : Type := {
  toUpperCase : jsstring → jsstring;
  toLowerCase : jsstring → jsstring;
  errorString : exn → jsstring;
  errorMessage : exn → jsstring;
  Number : Type;
  numberTruthy : Number → bool;
  numberString : Number → jsstring;
  jsonStringify : jsstring → jsstring
}.

Module Request.
(** A network request of [tab.requests()], reduced to the answers of the
    methods the handlers call on it; [headers] lists the entries of the
    header object in its own order. *)
Record t : Type := {
  method : jsstring;
  url : jsstring;
  resourceType : jsstring;
  headers : list (jsstring * jsstring);
  postData : option jsstring
}.
End Request.

Module NetResponse.
(** The response of a request; [text] is the outcome of awaiting
    [responseObj.text()]. *)
Record t : Type := {
  status : nat;
  statusText : jsstring;
  headers : list (jsstring * jsstring);
  text : completion jsstring
}.
End NetResponse.

(** [headers[name]]: [None] is [undefined]. *)
Definition header (headers : list (jsstring * jsstring)) (name : jsstring)
    : option jsstring :=
  match List.find (λ kv, bool_decide (kv.1 = name)) headers with
  | Some kv => Some kv.2
  | None => None
  end.

(** [s.split(';')[0]]. *)
Fixpoint beforeSemicolon (s : jsstring) : jsstring :=
  match s with
  | [] => []
  | c :: s' => if (c =? 59)%N then [] else c :: beforeSemicolon s'
  end.

Module LinkElement.
(** An [a[href]] element of the page, reduced to what the callback of
    [browser_get_all_links] reads: [textContent] and the [href] and [title]
    attributes, each [None] when the DOM answers [null]. *)
Record t : Type := {
  textContent : option jsstring;
  href : option jsstring;
  title : option jsstring
}.
End LinkElement.

Module Link.
(** What the callback returns for one element. *)
Record t : Type := {
  index : nat;
  text : jsstring;
  href : jsstring;
  title : jsstring
}.
End Link.

Module Tool.
Section Handlers.
Context `{Driver} `{Runtime}.
Import Response.

(** [try { body } catch (error) { handler }]: what [body] wrote before it
    threw stays written. *)
Definition tryCatch {A} (body : M A) (handler : exn → M A) : M A := λ w,
  match body w with
  | (w', Throw error) => handler error w'
  | (w', Normal a) => (w', Normal a)
  end.

(** [throw error]. *)
Definition throw {A} (error : exn) : M A := λ w, (w, Throw error).

(** *** [browser_check_checkbox] of [src/lib/tools/forms.js]

    The outcomes of the driver calls of one run are parameters:
    [tab.refLocator(params)], [locator.check()], [locator.uncheck()] and
    [generateLocator(locator)]. *)
Definition checkCheckbox {Locator : Type}
    (refLocator : completion Locator)
    (check uncheck : Locator → completion unit)
    (generateLocator : Locator → completion jsstring)
    (checked : bool) : M unit :=
  tryCatch
    (locator ← lift refLocator;
     (if checked then
        lift (check locator);;
        generated ← lift (generateLocator locator);
        addCode (js "await page." ++ generated ++ js ".check();");;
        addResult (js "Checkbox checked successfully")
      else
        lift (uncheck locator);;
        generated ← lift (generateLocator locator);
        addCode (js "await page." ++ generated ++ js ".uncheck();");;
        addResult (js "Checkbox unchecked successfully"));;
     setIncludeSnapshot)
    (λ error,
       addError (js "Failed to "
                 ++ (if checked then js "check" else js "uncheck")
                 ++ js " checkbox: " ++ errorString error)).

(** *** [browser_click] of [src/lib/tools/snapshot.js]

    [performClick] is the outcome of [tab.waitForCompletion] around the
    click or double click. *)
Definition click {Locator : Type}
    (refLocator : completion Locator)
    (generateLocator : Locator → completion jsstring)
    (performClick : Locator → completion unit)
    (doubleClick : bool) (button : option jsstring) : M unit :=
  setIncludeSnapshot;;
  locator ← lift refLocator;
  let buttonAttr :=
    if truthy button
    then js "{ button: '" ++ orEmpty button ++ js "' }" else [] in
  (if doubleClick then
     generated ← lift (generateLocator locator);
     addCode (js "await page." ++ generated ++ js ".dblclick("
              ++ buttonAttr ++ js ");")
   else
     generated ← lift (generateLocator locator);
     addCode (js "await page." ++ generated ++ js ".click("
              ++ buttonAttr ++ js ");"));;
  lift (performClick locator).

(** *** [browser_scroll_to] of [src/unnamed/part_004]

    [x] and [y] are tested against [undefined]; [scrollIntoView] and
    [evaluateScroll] are the outcomes of the two driver calls. *)
Definition scrollTo {Locator : Type}
    (refLocator : completion Locator)
    (scrollIntoView : Locator → completion unit)
    (generateLocator : Locator → completion jsstring)
    (evaluateScroll : completion unit)
    (element ref : option jsstring) (x y : option Number)
    (behavior : jsstring) : M unit :=
  tryCatch
    ((if truthy element && truthy ref then
        locator ← lift refLocator;
        lift (scrollIntoView locator);;
        generated ← lift (generateLocator locator);
        addCode (js "await page." ++ generated
                 ++ js ".scrollIntoViewIfNeeded();");;
        addResult (js "Scrolled to element successfully");;
        ret true
      else
        match x, y with
        | Some x, Some y =>
            lift evaluateScroll;;
            addCode (js "await page.evaluate(() => window.scrollTo({ left: "
                     ++ numberString x ++ js ", top: " ++ numberString y
                     ++ js ", behavior: '" ++ behavior ++ js "' }));");;
            addResult (js "Scrolled to position (" ++ numberString x
                       ++ js ", " ++ numberString y ++ js ")");;
            ret true
        | _, _ =>
            addError (js "Either provide element+ref OR x+y coordinates");;
            ret false
        end) ≫= λ proceed : bool,
     if proceed then setIncludeSnapshot else ret ())
    (λ error, addError (js "Failed to scroll: " ++ errorString error)).

(** *** [browser_wait_for] of [src/lib/tools/snapshot.js] *)

(** JavaScript truthiness of an optional number parameter. *)
Definition truthyNumber (o : option Number) : bool :=
  match o with
  | Some n => numberTruthy n
  | None => false
  end.

(** The text of an optional number parameter inside a template. *)
Definition numberText (o : option Number) : jsstring :=
  match o with
  | Some n => numberString n
  | None => js "undefined"
  end.

(** [params.state || 'visible']. *)
Definition stateOrVisible (state : option jsstring) : jsstring :=
  if truthy state then orEmpty state else js "visible".

(** [params.timeout || 5000], as text. *)
Definition timeoutText (timeout : option Number) : jsstring :=
  if truthyNumber timeout then numberText timeout else js "5000".

(** [state === 'visible' || state === 'attached']. *)
Definition visibleOrAttached (state : jsstring) : bool :=
  bool_decide (state = js "visible") || bool_decide (state = js "attached").

(** [params.state !== 'visible' && params.state !== 'attached'], on the
    parameter as it was given. *)
Definition neitherVisibleNorAttached (state : option jsstring) : bool :=
  negb (bool_decide (state = Some (js "visible")))
  && negb (bool_decide (state = Some (js "attached"))).

(** The array [waitedFor]. *)
Definition waitedFor (time : option Number)
    (text textGone element state : option jsstring) : list jsstring :=
  (if truthyNumber time then [numberText time ++ js " seconds"] else [])
  ++ (if truthy text
      then [js "text " ++ 34%N :: orEmpty text ++ [34%N]] else [])
  ++ (if truthy textGone
      then [js "text " ++ 34%N :: orEmpty textGone
            ++ 34%N :: js " to disappear"] else [])
  ++ (if truthy element
      then [js "element " ++ 34%N :: orEmpty element
            ++ 34%N :: js " to be " ++ stateOrVisible state] else []).

(** The handler.  The outcomes of [goneLocator.waitFor], [locator.waitFor],
    [tab.refLocator], [elementLocator.waitFor] and [generateLocator] are
    parameters; the timed sleep changes nothing in the store.  The local
    array [code] is filled and never read. *)
Definition wait {Locator : Type}
    (goneWaitFor textWaitFor : completion unit)
    (refLocator : completion Locator)
    (elementWaitFor : Locator → completion unit)
    (generateLocator : Locator → completion jsstring)
    (time : option Number) (text textGone element ref state : option jsstring)
    (timeout : option Number) : M unit :=
  if negb (truthy text) && negb (truthy textGone)
     && negb (truthyNumber time) && negb (truthy element)
  then throw (Error (js "Either time, text, textGone, or element must be provided"))
  else if truthy element && negb (truthy ref)
  then throw (Error (js "ref parameter is required when element is provided"))
  else if truthy ref && negb (truthy element)
  then throw (Error (js "element parameter is required when ref is provided"))
  else
    let code : list jsstring := [] in
    let code :=
      if truthyNumber time
      then code ++ [js "await new Promise(f => setTimeout(f, "
                    ++ numberText time ++ js " * 1000));"]
      else code in
    let code :=
      if truthy textGone
      then code ++ [js "await page.getByText("
                    ++ jsonStringify (orEmpty textGone)
                    ++ js ").first().waitFor({ state: 'hidden' });"]
      else code in
    (if truthy textGone then lift goneWaitFor else ret ());;
    let code :=
      if truthy text
      then code ++ [js "await page.getByText("
                    ++ jsonStringify (orEmpty text)
                    ++ js ").first().waitFor({ state: 'visible' });"]
      else code in
    (if truthy text then lift textWaitFor else ret ());;
    proceed ←
      (if truthy element && truthy ref then
         tryCatch
           (elementLocator ← lift refLocator;
            let elementState := stateOrVisible state in
            lift (elementWaitFor elementLocator);;
            generated ← lift (generateLocator elementLocator);
            addCode (js "await page." ++ generated
                     ++ js ".waitFor({ state: '" ++ elementState
                     ++ js "', timeout: " ++ timeoutText timeout
                     ++ js " });");;
            (if visibleOrAttached elementState
             then setIncludeSnapshot else ret ());;
            ret true)
           (λ error,
              addError (js "Failed to wait for element to be "
                        ++ stateOrVisible state ++ js ": "
                        ++ errorString error);;
              ret false)
       else ret true);
    if proceed : bool then
      addResult (js "Waited for "
                 ++ joinWith (js ", ")
                      (waitedFor time text textGone element state));;
      if negb (truthy element) || neitherVisibleNorAttached state
      then setIncludeSnapshot else ret ()
    else ret ().

(** *** [browser_network_requests] and [browser_network_request_details]
    of [src/unnamed/part_001] *)

(** [a.forEach(x => f(x))] with a callback that writes to the accumulator. *)
Fixpoint forEach {A} (f : A → M unit) (a : list A) : M unit :=
  match a with
  | [] => ret ()
  | x :: a' => f x;; forEach f a'
  end.

(** [renderRequest(request, response)]. *)
Definition renderRequest (request : Request.t)
    (response : option NetResponse.t) : jsstring :=
  let result :=
    [js "[" ++ toUpperCase (Request.method request) ++ js "] "
     ++ Request.url request] in
  let result :=
    match response with
    | Some response =>
        let result :=
          result ++ [js "=> [" ++ showNat (NetResponse.status response)
                     ++ js "] " ++ NetResponse.statusText response] in
        (* Add content type if available *)
        let contentType :=
          header (NetResponse.headers response) (js "content-type") in
        if truthy contentType then
          let shortContentType := beforeSemicolon (orEmpty contentType) in
          result ++ [js "(" ++ shortContentType ++ js ")"]
        else result
    | None => result ++ [js "=> [PENDING/FAILED]"]
    end in
  joinWith (js " ") result.

(** The filter callback of [browser_network_requests]. *)
Definition requestMatches (method : option jsstring) (status : option nat)
    (contentType urlPattern : option jsstring)
    (entry : Request.t * option NetResponse.t) : bool :=
  let '(req, res) := entry in
  (* Filter by HTTP method *)
  if truthy method
     && negb (bool_decide (toUpperCase (Request.method req)
                           = toUpperCase (orEmpty method)))
  then false
  (* Filter by status code *)
  else if match status with
          | Some (S _ as wanted) =>
              match res with
              | None => true
              | Some res => negb (NetResponse.status res =? wanted)
              end
          | _ => false
          end
  then false
  (* Filter by content type *)
  else if match res with
          | Some res =>
              truthy contentType
              && negb (includes
                         (toLowerCase
                            (orEmpty (header (NetResponse.headers res)
                                        (js "content-type"))))
                         (toLowerCase (orEmpty contentType)))
          | None => false
          end
  then false
  (* Filter by URL pattern *)
  else if truthy urlPattern
          && negb (includes (toLowerCase (Request.url req))
                     (toLowerCase (orEmpty urlPattern)))
  then false
  else true.

(** The requests [browser_network_requests] renders: the matching ones, cut
    by [slice(0, limit)] when [limit] is truthy. *)
Definition shownRequests (entries : list (Request.t * option NetResponse.t))
    (method : option jsstring) (status : option nat)
    (contentType urlPattern : option jsstring) (limit : option Z)
    : list (Request.t * option NetResponse.t) :=
  let filteredRequests :=
    List.filter (requestMatches method status contentType urlPattern)
      entries in
  match limit with
  | Some l => if (l =? 0)%Z then filteredRequests
              else slice0 filteredRequests l
  | None => filteredRequests
  end.

(** The handler of [browser_network_requests]; [entries] is
    [[...tab.requests().entries()]]. *)
Definition requests (entries : list (Request.t * option NetResponse.t))
    (method : option jsstring) (status : option nat)
    (contentType urlPattern : option jsstring) (limit : option Z)
    : M unit :=
  let filteredRequests :=
    shownRequests entries method status contentType urlPattern limit in
  (* Render results *)
  forEach (λ '(req, res), addResult (renderRequest req res))
    filteredRequests;;
  if length filteredRequests =? 0 then
    addResult (js "No requests found matching the specified filters.")
  else
    addResult (10%N :: js "Showing " ++ showNat (length filteredRequests)
               ++ js " request(s). Use browser_network_request_details with the full URL to see details.").

(** The body lines of [browser_network_request_details]: the body as it is
    up to 1000 code units, cut with a marker beyond. *)
Definition bodyLine (body : jsstring) : jsstring :=
  if 1000 <? length body
  then take 1000 body ++ 10%N :: js "... (truncated)"
  else body.

(** The filter callback of [browser_network_request_details]. *)
Definition detailMatches (url : jsstring) (method : option jsstring)
    (entry : Request.t * option NetResponse.t) : bool :=
  let '(req, res) := entry in
  let urlMatches := bool_decide (Request.url req = url) in
  let methodMatches :=
    negb (truthy method)
    || bool_decide (toUpperCase (Request.method req)
                    = toUpperCase (orEmpty method)) in
  urlMatches && methodMatches.

(** The handler of [browser_network_request_details]. *)
Definition requestDetails (entries : list (Request.t * option NetResponse.t))
    (url : jsstring) (method : option jsstring) : M unit :=
  (* Find matching request(s) *)
  let matchingRequests := List.filter (detailMatches url method) entries in
  match matchingRequests with
  | [] =>
      addError (js "No request found for URL: " ++ url
                ++ (if truthy method
                    then js " with method " ++ orEmpty method else []))
  | (request, responseObj) :: others =>
      if (1 <? length matchingRequests) && negb (truthy method) then
        addResult (js "Found " ++ showNat (length matchingRequests)
                   ++ js " requests for this URL with different methods:");;
        forEach (λ '(req, res),
                   addResult (js "- " ++ toUpperCase (Request.method req)
                              ++ js " " ++ Request.url req))
          matchingRequests;;
        addResult (10%N :: js "Please specify the 'method' parameter to get details for a specific request.")
      else
        (* Request details *)
        addResult (js "## Request Details");;
        addResult (js "**URL:** " ++ Request.url request);;
        addResult (js "**Method:** " ++ toUpperCase (Request.method request));;
        addResult (js "**Resource Type:** " ++ Request.resourceType request);;
        (* Request headers *)
        addResult (10%N :: js "**Request Headers:**");;
        forEach (λ '(key, value),
                   addResult (js "  " ++ key ++ js ": " ++ value))
          (Request.headers request);;
        (* Request body (if available) *)
        (if truthy (Request.postData request) then
           addResult (10%N :: js "**Request Body:**");;
           addResult (orEmpty (Request.postData request))
         else ret ());;
        (* Response details *)
        match responseObj with
        | Some responseObj =>
            addResult (10%N :: js "## Response Details");;
            addResult (js "**Status:** "
                       ++ showNat (NetResponse.status responseObj)
                       ++ js " " ++ NetResponse.statusText responseObj);;
            (* Response headers *)
            let responseHeaders := NetResponse.headers responseObj in
            addResult (10%N :: js "**Response Headers:**");;
            forEach (λ '(key, value),
                       addResult (js "  " ++ key ++ js ": " ++ value))
              responseHeaders;;
            (* Response body (if text-based) *)
            tryCatch
              (let contentType :=
                 orEmpty (header responseHeaders (js "content-type")) in
               if includes contentType (js "text/")
                  || includes contentType (js "application/json")
                  || includes contentType (js "application/xml")
               then
                 body ← lift (NetResponse.text responseObj);
                 if nonEmpty body && (0 <? length body) then
                   addResult (10%N :: js "**Response Body:**");;
                   (* Limit body size for readability *)
                   addResult (bodyLine body)
                 else ret ()
               else ret ())
              (λ error,
                 addResult (10%N :: js "**Response Body:** Unable to read response body: "
                            ++ errorMessage error))
        | None =>
            addResult (10%N :: js "## Response Details");;
            addResult (js "**Status:** No response received (request may have failed or is still pending)")
        end
  end.

(** *** [browser_get_all_links] and [browser_get_table_data] of
    [src/lib/tools/extraction.js] *)

(** [o?.trim() || '']. *)
Definition trimOrEmpty (o : option jsstring) : jsstring :=
  match o with
  | Some s => str_trim s
  | None => []
  end.

(** The callback that [browser_get_all_links] evaluates in the page, on the
    elements [document.querySelectorAll('a[href]')] finds. *)
Definition collectLinks (linkElements : list LinkElement.t) : list Link.t :=
  imap (λ index link,
          {| Link.index := index;
             Link.text := trimOrEmpty (LinkElement.textContent link);
             Link.href := orEmpty (LinkElement.href link);
             Link.title := orEmpty (LinkElement.title link) |})
       linkElements.

(** One line of [results] in [browser_get_all_links]. *)
Definition renderLink (includeText includeHref : bool) (link : Link.t)
    : jsstring :=
  let parts := [js "[" ++ showNat (Link.index link) ++ js "]"] in
  let parts :=
    if includeText && nonEmpty (Link.text link)
    then parts ++ [34%N :: Link.text link ++ [34%N]] else parts in
  let parts :=
    if includeHref
    then parts ++ [8594%N :: js " " ++ Link.href link] else parts in
  let parts :=
    if nonEmpty (Link.title link)
    then parts ++ [js "(" ++ Link.title link ++ js ")"] else parts in
  joinWith (js " ") parts.

(** The handler of [browser_get_all_links]; [evaluate] is the outcome of
    [tab.page.evaluate] up to the elements the page holds. *)
Definition getAllLinks (evaluate : completion (list LinkElement.t))
    (includeText includeHref : bool) (limit : Z) : M unit :=
  tryCatch
    (linkElements ← lift evaluate;
     let links := collectLinks linkElements in
     let limitedLinks := slice0 links limit in
     let results := map (renderLink includeText includeHref) limitedLinks in
     addCode (js "const links = await page.evaluate(() => Array.from(document.querySelectorAll('a[href]')).map(link => ({ text: link.textContent, href: link.href })));");;
     addResult (js "Found " ++ showNat (length links)
                ++ js " links (showing first "
                ++ showNat (length limitedLinks) ++ js "):"
                ++ 10%N :: joinWith [10%N] results))
    (λ error, addError (js "Failed to get links: " ++ errorString error)).

(** The callback that [browser_get_table_data] evaluates in the page, on the
    rows of the table the selector finds: each row is the [textContent] of
    its cells. *)
Definition collectRows (maxRows : Z) (rows : list (list (option jsstring)))
    : list (list jsstring) :=
  List.filter (λ rowData, existsb nonEmpty rowData)
    (map (λ cells, map trimOrEmpty cells) (slice0 rows maxRows)).

(** One line of [results] in [browser_get_table_data]. *)
Definition renderRow (includeHeaders : bool) (index : nat)
    (row : list jsstring) : jsstring :=
  let isHeader := (index =? 0) && includeHeaders in
  let prefix := if isHeader then js "HEADER" else js "ROW " ++ showNat index in
  prefix ++ js ": " ++ joinWith (js " | ") row.

(** The handler of [browser_get_table_data]; [evaluate] is the outcome of
    [tab.page.evaluate] up to the table the selector finds, [None] when
    there is none. *)
Definition getTableData
    (evaluate : completion (option (list (list (option jsstring)))))
    (selector : jsstring) (includeHeaders : bool) (maxRows : Z) : M unit :=
  tryCatch
    (table ← lift evaluate;
     match table with
     | None =>
         addError (js "No table found with selector " ++ 34%N :: selector
                   ++ [34%N])
     | Some rows =>
         let tableData := collectRows maxRows rows in
         let results := imap (renderRow includeHeaders) tableData in
         addCode (js "const tableData = await page.evaluate(() => Array.from(document.querySelector('"
                  ++ selector
                  ++ js "').querySelectorAll('tr')).map(row => Array.from(row.cells).map(cell => cell.textContent)));");;
         addResult (js "Table data (" ++ showNat (length tableData)
                    ++ js " rows):" ++ 10%N :: joinWith [10%N] results)
     end)
    (λ error,
       addError (js "Failed to extract table data: " ++ errorString error)).

End Handlers.
End Tool.

(** ** Vocabulary of the handlers *)

(** A completion is a normal one. *)
Definition resolved {A} (c : completion A) : bool :=
  match c with Normal _ => true | Throw _ => false end.

(** The driver calls of [checkCheckbox] all resolve. *)
Definition checkSucceeds {Locator : Type} (refLocator : completion Locator)
    (check uncheck : Locator → completion unit)
    (generateLocator : Locator → completion jsstring) (checked : bool)
    : bool :=
  match refLocator with
  | Normal locator =>
      resolved (if checked then check locator else uncheck locator)
      && resolved (generateLocator locator)
  | Throw _ => false
  end.

(** The locator of [click] and its generated text both resolve. *)
Definition clickCoded {Locator : Type} (refLocator : completion Locator)
    (generateLocator : Locator → completion jsstring) : bool :=
  match refLocator with
  | Normal locator => resolved (generateLocator locator)
  | Throw _ => false
  end.

(** The completion of [click]: the first rejection among its driver calls,
    in call order, or the completion of the click itself. *)
Definition clickCompletion {Locator : Type} (refLocator : completion Locator)
    (generateLocator : Locator → completion jsstring)
    (performClick : Locator → completion unit) : completion unit :=
  match refLocator with
  | Normal locator =>
      match generateLocator locator with
      | Normal _ => performClick locator
      | Throw e => Throw e
      end
  | Throw e => Throw e
  end.

(** The scroll that [scrollTo] chose was performed and described. *)
Definition scrollSucceeds {Locator : Type} `{Runtime}
    (refLocator : completion Locator)
    (scrollIntoView : Locator → completion unit)
    (generateLocator : Locator → completion jsstring)
    (evaluateScroll : completion unit)
    (element ref : option jsstring) (x y : option Number) : bool :=
  if truthy element && truthy ref then
    match refLocator with
    | Normal locator =>
        resolved (scrollIntoView locator)
        && resolved (generateLocator locator)
    | Throw _ => false
    end
  else
    match x, y with
    | Some _, Some _ => resolved evaluateScroll
    | _, _ => false
    end.

(** The element wait of [wait], when one is asked for, went through. *)
Definition waitElementOk {Locator : Type} (refLocator : completion Locator)
    (elementWaitFor : Locator → completion unit)
    (generateLocator : Locator → completion jsstring)
    (element ref : option jsstring) : bool :=
  if truthy element && truthy ref then
    match refLocator with
    | Normal locator =>
        resolved (elementWaitFor locator)
        && resolved (generateLocator locator)
    | Throw _ => false
    end
  else true.

(** The store [w] with [lines] appended to the result log and nothing else
    changed. *)
Definition addLines `{Driver} (lines : list jsstring) (w : Response.World)
    : Response.World :=
  {| Response.accumulator :=
       Response.set_result
         (Response._result (Response.accumulator w) ++ lines)
         (Response.accumulator w);
     Response.shared := Response.shared w |}.

(** A method call that only appends lines to the result log and returns. *)
Definition onlyAppends `{Driver} {A} (m : Response.M A) : Prop :=
  ∀ w, ∃ lines a, m w = (addLines lines w, Normal a).

(** A method call that only appends lines to the result log, and returns or
    throws. *)
Definition appendsOrThrows `{Driver} {A} (m : Response.M A) : Prop :=
  ∀ w, ∃ lines c, m w = (addLines lines w, c).

(** A sample runtime: ASCII case mapping is not needed by the samples, so
    case mapping is the identity; an error prints as its text. *)
Definition sampleRuntime : Runtime := {|
  toUpperCase := λ s, s;
  toLowerCase := λ s, s;
  errorString := λ e,
    match e with
    | DriverError what => js "Error: " ++ what
    | TypeError => js "TypeError"
    | FuelExhausted => js "RangeError"
    end;
  errorMessage := λ e,
    match e with
    | DriverError what => what
    | _ => []
    end;
  Number := nat;
  numberTruthy := λ n, negb (n =? 0);
  numberString := showNat;
  jsonStringify := λ s, 34%N :: s ++ [34%N]
|}.

(** ** The legacy tab listing of [response.js] *)

(** The loop of [renderTabsMarkdown]: [rest] holds [tabs[i..]]. *)
Fixpoint tabLines (rest : list Tab.t) (i : nat) (lines : list jsstring)
    : list jsstring :=
  match rest with
  | [] => lines
  | tab :: rest' =>
      let current := if Tab.isCurrentTab tab then js " (current)" else [] in
      tabLines rest' (S i)
        (lines ++ [js "- " ++ showNat i ++ js ":" ++ current ++ js " ["
                   ++ Tab.lastTitle tab ++ js "] (" ++ Tab.url tab ++ js ")"])
  end.

(** [renderTabsMarkdown(tabs, force)]. *)
Definition renderTabsMarkdown (tabs : list Tab.t) (force : bool)
    : list jsstring :=
  if (length tabs =? 1) && negb force then []
  else if length tabs =? 0 then
    [js "### Open tabs"; noOpenTabsMessage; []]
  else
    let lines := [js "### Open tabs"] in
    let lines := tabLines tabs 0 lines in
    lines ++ [[]].

(** ** Sample inputs of the handlers *)

Definition usersResponse : NetResponse.t :=
  {| NetResponse.status := 200;
     NetResponse.statusText := js "OK";
     NetResponse.headers :=
       [(js "content-type", js "application/json; charset=utf-8")];
     NetResponse.text := Normal (js "[]") |}.

Definition usersRequest : Request.t :=
  {| Request.method := js "GET";
     Request.url := js "http://localhost:3000/api/users";
     Request.resourceType := js "fetch";
     Request.headers := [(js "accept", js "*/*")];
     Request.postData := None |}.

Definition loginRequest : Request.t :=
  {| Request.method := js "POST";
     Request.url := js "http://localhost:3000/api/login";
     Request.resourceType := js "fetch";
     Request.headers := [];
     Request.postData := Some (js "{}") |}.

(** One answered request and one that is still pending. *)
Definition sampleEntries : list (Request.t * option NetResponse.t) :=
  [(usersRequest, Some usersResponse); (loginRequest, None)].

Definition sampleLinks : list LinkElement.t :=
  [ {| LinkElement.textContent := Some (js " Home ");
       LinkElement.href := Some (js "/");
       LinkElement.title := None |};
    {| LinkElement.textContent := None;
       LinkElement.href := Some (js "/docs");
       LinkElement.title := Some (js "Documentation") |};
    {| LinkElement.textContent := Some (js "About");
       LinkElement.href := Some (js "/about");
       LinkElement.title := None |} ].

(** A table whose first row has empty cells only. *)
Definition sampleTable : list (list (option jsstring)) :=
  [ [Some (js " "); None];
    [Some (js "Name"); Some (js "Age")];
    [Some (js "Ada"); Some (js "36")] ].

(** The locator text the driver generates in the sample runs; a locator is
    modelled by its reference. *)
Definition sampleGenerate (ref : jsstring) : completion jsstring :=
  Normal (js "locator('aria-ref=" ++ ref ++ js "')").

(** [browser_scroll_to] called with [y] only. *)
Definition scrollWithoutTarget : @Response.World sampleDriver * completion unit :=
  @Tool.scrollTo sampleDriver sampleRuntime jsstring (Normal (js "e5"))
    (λ _, Normal ()) sampleGenerate (Normal ())
    None None None (Some (10 : nat)) (js "auto") freshWorld.

(** [browser_wait_for] called with an element and no reference. *)
Definition waitWithoutRef : @Response.World sampleDriver * completion unit :=
  @Tool.wait sampleDriver sampleRuntime jsstring (Normal ()) (Normal ())
    (Normal (js "e5")) (λ _, Normal ()) sampleGenerate
    None None None (Some (js "Submit")) None None None freshWorld.

(** [browser_wait_for] called with a time of two seconds. *)
Definition waitTwoSeconds : @Response.World sampleDriver * completion unit :=
  @Tool.wait sampleDriver sampleRuntime jsstring (Normal ()) (Normal ())
    (Normal (js "e5")) (λ _, Normal ()) sampleGenerate
    (Some (2 : nat)) None None None None None None freshWorld.

(** * Properties *)

(** ** Splitting and joining lines *)

Lemma split_not_nil (s : jsstring) : split s ≠ [].
Proof.
  destruct s as [|c s]; simpl; [done|].
  destruct (c =? 10)%N; [done|]. by destruct (split s).
Qed.

Lemma split_noNewline (s : jsstring) : Forall noNewline (split s).
Proof.
  induction s as [|c s IH]; simpl.
  - constructor; [|constructor]. apply not_elem_of_nil.
  - destruct (N.eqb_spec c 10) as [->|Hc].
    + constructor; [|done]. apply not_elem_of_nil.
    + pose proof (split_not_nil s) as Hne.
      destruct (split s) as [|l ls]; [done|].
      inversion_clear IH as [|? ? Hl Hls].
      constructor; [|done].
      unfold noNewline in *. rewrite elem_of_cons. intros [?|?]; congruence.
Qed.

Lemma join_cons (l : jsstring) (a : list jsstring) :
  a ≠ [] → join (l :: a) = l ++ 10%N :: join a.
Proof. by destruct a. Qed.

Lemma join_split (s : jsstring) : join (split s) = s.
Proof.
  induction s as [|c s IH]; simpl; [done|].
  pose proof (split_not_nil s) as Hne.
  destruct (c =? 10)%N eqn:Hc.
  - apply N.eqb_eq in Hc as ->.
    rewrite join_cons by done. simpl. by rewrite IH.
  - destruct (split s) as [|l ls]; [done|].
    destruct ls as [|l' ls]; simpl in *; by rewrite <- IH.
Qed.

Lemma split_line (l : jsstring) : noNewline l → split l = [l].
Proof.
  unfold noNewline. induction l as [|c l IH]; simpl; [done|].
  rewrite elem_of_cons. intros Hn.
  destruct (N.eqb_spec c 10) as [->|_]; [naive_solver|].
  rewrite IH by naive_solver. done.
Qed.

Lemma split_app_newline (l s : jsstring) :
  noNewline l → split (l ++ 10%N :: s) = l :: split s.
Proof.
  unfold noNewline. induction l as [|c l IH]; simpl; [done|].
  rewrite elem_of_cons. intros Hn.
  destruct (N.eqb_spec c 10) as [->|_]; [naive_solver|].
  rewrite IH by naive_solver. done.
Qed.

Lemma split_join (a : list jsstring) :
  a ≠ [] → Forall noNewline a → split (join a) = a.
Proof.
  induction a as [|l a IH]; [done|]. intros _ Hall.
  inversion_clear Hall as [|? ? Hl Ha].
  destruct a as [|l' a]; [by apply split_line|].
  rewrite join_cons by done. rewrite split_app_newline by done.
  f_equal. by apply IH.
Qed.

Lemma split_join_nil : split (join []) = [[]].
Proof. reflexivity. Qed.

(** ** The closure and the loops, read on the lines that follow *)

Lemma drop_eq_cons {A} (l : list A) (i : nat) (x : A) (rest : list A) :
  drop i l = x :: rest → l !! i = Some x ∧ drop (S i) l = rest.
Proof.
  revert i. induction l as [|y l IH]; intros [|i] Hd; simpl in *;
    try done.
  - by simplify_eq.
  - by apply IH.
Qed.

Lemma startsWith_generic_nonEmpty (t : jsstring) :
  startsWith t (js "- generic [ref=") = true → nonEmpty t = true.
Proof. by destruct t. Qed.

Lemma bareNode_not_blank (line : jsstring) :
  bareNode line = true → isBlank line = false.
Proof.
  unfold bareNode, isBlank. intros [Hs _]%andb_prop.
  by rewrite (startsWith_generic_nonEmpty _ Hs).
Qed.


Lemma descendantLoop_scanRest (lines : list jsstring)
    (recur : nat → completion bool) (currentIndent : nat) :
  ∀ (rest : list jsstring) (i : nat),
    drop i lines = rest →
    (∀ j lj, i ≤ j → lines !! j = Some lj →
       recur j = Normal (usefulLine lj (drop (S j) lines))) →
    descendantLoop recur currentIndent rest i
    = Normal (scanRest currentIndent rest).
Proof.
  induction rest as [|nextLine rest IH]; intros i Hdrop Hrec; simpl; [done|].
  apply drop_eq_cons in Hdrop as [Hi Hdrop].
  destruct (_ && _); [done|].
  destruct (currentIndent <? indentOf nextLine).
  - rewrite (Hrec i nextLine) by done. rewrite Hdrop. simpl.
    unfold usefulLine.
    destruct (if bareNode nextLine then _ else _); simpl; [done|].
    apply IH; [done|]. intros j lj Hj. apply Hrec. lia.
  - simpl. apply IH; [done|]. intros j lj Hj. apply Hrec. lia.
Qed.

Lemma hasUsefulContent_usefulLine (lines : list jsstring) :
  ∀ (fuel i : nat) (line : jsstring),
    lines !! i = Some line →
    length lines - i ≤ fuel →
    hasUsefulContent fuel lines i
    = Normal (usefulLine line (drop (S i) lines)).
Proof.
  induction fuel as [|fuel IH]; intros i line Hi Hfuel.
  - apply lookup_lt_Some in Hi. lia.
  - simpl. rewrite Hi. unfold usefulLine, bareNode.
    destruct (startsWith _ _) eqn:Hs; simpl; [|done].
    destruct (hasTextAfterColon _); simpl.
    + by rewrite (startsWith_generic_nonEmpty _ Hs).
    + apply (descendantLoop_scanRest lines); [done|].
      intros j lj Hj Hlj. apply IH; [done|].
      apply lookup_lt_Some in Hi. lia.
Qed.

Lemma hasUsefulContent_total (lines : list jsstring) (i : nat) (line : jsstring) :
  lines !! i = Some line →
  hasUsefulContent (length lines) lines i
  = Normal (usefulLine line (drop (S i) lines)).
Proof. intros Hi. apply hasUsefulContent_usefulLine; [done|lia]. Qed.

Lemma usefulAt_usefulLine (lines : list jsstring) (i : nat) (line : jsstring) :
  lines !! i = Some line →
  usefulAt lines i = usefulLine line (drop (S i) lines).
Proof.
  intros Hi. unfold usefulAt. by rewrite (hasUsefulContent_total _ _ _ Hi).
Qed.

Lemma filterLoop_compactLines (lines : list jsstring) :
  ∀ (rest : list jsstring) (i : nat) (result : list jsstring),
    drop i lines = rest →
    filterLoop lines rest i result = Normal (result ++ compactLines rest).
Proof.
  induction rest as [|line rest IH]; intros i result Hdrop; simpl.
  - by rewrite app_nil_r.
  - apply drop_eq_cons in Hdrop as [Hi Hdrop].
    rewrite (hasUsefulContent_total _ _ _ Hi), Hdrop.
    unfold isBlank.
    destruct (nonEmpty (str_trim line)); simpl.
    + rewrite (IH (S i)) by done. destruct (usefulLine line rest); [|done].
      by rewrite <- app_assoc.
    + rewrite (IH (S i)) by done. by rewrite <- app_assoc.
Qed.

Lemma filter_compactLines (ariaSnapshot : jsstring) :
  filterEmptyGenericElementsIntelligent ariaSnapshot
  = Normal (join (compactLines (split ariaSnapshot))).
Proof.
  unfold filterEmptyGenericElementsIntelligent.
  by rewrite (filterLoop_compactLines _ _ 0 []).
Qed.


(** ** Dropping useless lines does not change any verdict *)

Lemma scanRest_deeper_bound (rest : list jsstring) :
  ∀ d d' : nat, d' ≤ d → scanRest d' rest = false → scanRest d rest = false.
Proof.
  induction rest as [|nextLine rest IH]; intros d d' Hle; simpl; [done|].
  destruct (nonEmpty (str_trim nextLine)) eqn:Hne;
    rewrite ?andb_true_r, ?andb_false_r.
  - destruct (Nat.leb_spec (indentOf nextLine) d');
      destruct (Nat.leb_spec (indentOf nextLine) d); try done; try lia.
    destruct (Nat.ltb_spec d' (indentOf nextLine)); [|lia].
    destruct (Nat.ltb_spec d (indentOf nextLine)); [|lia]. simpl.
    destruct (if bareNode nextLine then _ else _); [done|]. by apply IH.
  - destruct (Nat.ltb_spec d' (indentOf nextLine));
      destruct (Nat.ltb_spec d (indentOf nextLine)); simpl; try lia.
    + destruct (if bareNode nextLine then _ else _); [done|]. by apply IH.
    + destruct (if bareNode nextLine then _ else _); [done|]. by apply IH.
    + by apply IH.
Qed.

Lemma scanRest_compactLines (rest : list jsstring) :
  ∀ d : nat, scanRest d (compactLines rest) = scanRest d rest.
Proof.
  induction rest as [|line rest IH]; intros d; simpl; [done|].
  destruct (isBlank line || usefulLine line rest) eqn:Hkeep; simpl.
  - by rewrite !IH.
  - apply orb_false_elim in Hkeep as [Hblank Huseless].
    rewrite IH. unfold isBlank in Hblank. apply negb_false_iff in Hblank.
    rewrite Hblank, andb_true_r. unfold usefulLine in Huseless.
    destruct (bareNode line) eqn:Hbare; [|congruence].
    destruct (Nat.leb_spec (indentOf line) d); simpl.
    + by apply (scanRest_deeper_bound _ _ (indentOf line)).
    + destruct (Nat.ltb_spec d (indentOf line)); [|lia].
      by rewrite Huseless.
Qed.

Lemma usefulLine_compactLines (line : jsstring) (rest : list jsstring) :
  usefulLine line (compactLines rest) = usefulLine line rest.
Proof. unfold usefulLine. by rewrite scanRest_compactLines. Qed.

Lemma compactLines_idempotent (lines : list jsstring) :
  compactLines (compactLines lines) = compactLines lines.
Proof.
  induction lines as [|line rest IH]; simpl; [done|].
  destruct (isBlank line || usefulLine line rest) eqn:Hkeep; simpl; [|done].
  by rewrite usefulLine_compactLines, Hkeep, IH.
Qed.

Lemma compactLines_sublist (lines : list jsstring) :
  compactLines lines `sublist_of` lines.
Proof.
  induction lines as [|line rest IH]; simpl; [done|].
  destruct (_ || _); by constructor.
Qed.

Lemma compactLines_blank (lines : list jsstring) :
  List.filter isBlank (compactLines lines) = List.filter isBlank lines.
Proof.
  induction lines as [|line rest IH]; simpl; [done|].
  destruct (isBlank line) eqn:Hb; simpl.
  - by rewrite Hb, IH.
  - destruct (usefulLine line rest); simpl; by rewrite ?Hb, IH.
Qed.

Lemma compactLines_noNewline (lines : list jsstring) :
  Forall noNewline lines → Forall noNewline (compactLines lines).
Proof.
  rewrite !Forall_forall. intros Hall l Hl. apply Hall.
  eapply elem_of_sublist; [done|]. apply compactLines_sublist.
Qed.



(** ** What the scan of a bare node finds *)



(** ** The shape of a bare structural node *)

Lemma trimStart_whitespace_app (a b : jsstring) :
  Forall (λ c, isWhiteSpace c = true) a → trimStart (a ++ b) = trimStart b.
Proof. induction 1 as [|c a Hc _ IH]; simpl; [done|]. by rewrite Hc. Qed.


Lemma wordChar_not_bracket (c : N) :
  isWordChar c = true → (93 =? c)%N = false.
Proof. destruct (N.eqb_spec 93 c) as [<-|]; [discriminate|done]. Qed.

Lemma closeThenGroup_word (c : N) (r : jsstring) :
  isWordChar c = true → Regex.closeThenGroup (c :: r) = None.
Proof.
  intros Hc. unfold Regex.closeThenGroup.
  change (startsWith (c :: r) (js "]:"))
    with ((93 =? c)%N && startsWith r [58%N]).
  by rewrite (wordChar_not_bracket _ Hc).
Qed.




(** ** The compactor *)



(** C2. The compactor is a function of its input text, it always returns,
    and compacting its output gives that output back. *)
Theorem compactor_idempotent :
  ∀ T : jsstring, ∃ c : jsstring,
    filterEmptyGenericElementsIntelligent T = Normal c ∧
    filterEmptyGenericElementsIntelligent c = Normal c.
Proof.
  intros T. exists (join (compactLines (split T))).
  split; [apply filter_compactLines|].
  rewrite filter_compactLines. f_equal.
  destruct (compactLines (split T)) as [|l ls] eqn:Hc; [done|].
  rewrite split_join; [| done |].
  - by rewrite <- Hc, compactLines_idempotent.
  - rewrite <- Hc. apply compactLines_noNewline, split_noNewline.
Qed.

(** C6. The compactor only omits lines: its output is the join of a
    subsequence of the input lines (same lines, same order, nothing rewritten
    or re-indented), every blank input line is in that subsequence, and every
    non-blank line of the output text is a line of the input text. *)
Theorem compactor_preserves_lines :
  ∀ T : jsstring, ∃ kept : list jsstring,
    filterEmptyGenericElementsIntelligent T = Normal (join kept) ∧
    kept `sublist_of` split T ∧
    List.filter isBlank kept = List.filter isBlank (split T) ∧
    ∀ l, l ∈ split (join kept) → isBlank l = false → l ∈ split T.
Proof.
  intros T. exists (compactLines (split T)).
  split; [apply filter_compactLines|].
  split; [apply compactLines_sublist|].
  split; [apply compactLines_blank|].
  intros l Hl Hnb.
  destruct (compactLines (split T)) as [|k ks] eqn:Hc.
  - simpl in Hl. apply list_elem_of_singleton in Hl as ->. done.
  - rewrite split_join in Hl; [| done |].
    + eapply elem_of_sublist; [done|]. rewrite <- Hc.
      apply compactLines_sublist.
    + rewrite <- Hc. apply compactLines_noNewline, split_noNewline.
Qed.

(** ** The accumulator and the serializer *)

Section Accumulator.
Context `{Driver}.
Import Response.

Local Arguments renderTabSnapshotJson : simpl never.
Local Arguments renderTabsJson : simpl never.

Lemma renderTabSnapshotJson_returns (ts : TabSnapshot.t ModalState) :
  ∃ ps, renderTabSnapshotJson (Some ts) = Normal ps.
Proof.
  unfold renderTabSnapshotJson. rewrite filter_compactLines. simpl.
  by eexists.
Qed.

(** What [serialize] computes, field by field. *)
Lemma serialize_fields (w : World) :
  ∃ j : JsonResponse.t,
    serialize w
    = (w, Normal {| Wrapper.content := j;
                    Wrapper.isError := _isError (accumulator w) |}) ∧
    JsonResponse.toolName j = toolName (accumulator w) ∧
    JsonResponse.toolArgs j = toolArgs (accumulator w) ∧
    JsonResponse.isError j = _isError (accumulator w) ∧
    JsonResponse.result j
    = (if 0 <? length (_result (accumulator w))
       then JStrings (_result (accumulator w)) else JNull) ∧
    JsonResponse.code j
    = (if 0 <? length (_code (accumulator w))
       then JStrings (_code (accumulator w)) else JNull) ∧
    JsonResponse.tabs j
    = (if _includeSnapshot (accumulator w) || _includeTabs (accumulator w)
       then renderTabsJson (Context.tabs (shared w))
              (_includeTabs (accumulator w))
       else None) ∧
    match _tabSnapshot (accumulator w) with
    | None =>
        JsonResponse.pageState j = None ∧ JsonResponse.modalStates j = None
    | Some ts =>
        if 0 <? length (TabSnapshot.modalStates ts) then
          JsonResponse.pageState j = None ∧
          JsonResponse.modalStates j = Some (TabSnapshot.modalStates ts)
        else
          JsonResponse.modalStates j = None ∧
          ∃ ps, renderTabSnapshotJson (Some ts) = Normal ps ∧
                JsonResponse.pageState j = Some ps
    end ∧
    JsonResponse.images j
    = (if bool_decide (Config.imageResponses (Context.config (shared w))
                       = js "omit")
       then [] else pushImages (_images (accumulator w)) []).
Proof.
  destruct w as [this context].
  unfold serialize, mbind, M_bind, bind, gets, lift, ret. simpl.
  destruct (_tabSnapshot this) as [ts|] eqn:Hts; simpl.
  - destruct (0 <? length (TabSnapshot.modalStates ts)) eqn:Hm; simpl.
    + eexists. split; [reflexivity|].
      destruct (bool_decide _), (_ || _); simpl;
        try destruct (renderTabsJson _ _); simpl; by rewrite ?Hm.
    + destruct (renderTabSnapshotJson_returns ts) as [ps Hps].
      rewrite Hps. simpl.
      eexists. split; [reflexivity|].
      destruct (bool_decide _), (_ || _); simpl;
        try destruct (renderTabsJson _ _); simpl; rewrite ?Hm;
        repeat split; eauto.
  - eexists. split; [reflexivity|].
    destruct (bool_decide _), (_ || _); simpl;
      try destruct (renderTabsJson _ _); simpl; done.
Qed.

Lemma serialize_returns (w : World) : ∃ p, serialize w = (w, Normal p).
Proof. destruct (serialize_fields w) as (j & Hs & _). eauto. Qed.

Lemma invoke_returns (c : call) (w : World) : (invoke c w).2 = Normal ().
Proof. by destruct c. Qed.

Lemma invokeAll_returns (cs : list call) :
  ∀ w, (invokeAll cs w).2 = Normal ().
Proof.
  induction cs as [|c cs IH]; intros w; simpl; [done|].
  unfold mbind, M_bind, bind.
  pose proof (invoke_returns c w) as Hc.
  destruct (invoke c w) as [w' r]. simpl in Hc. subst r. apply IH.
Qed.

Lemma invokeAll_cons (c : call) (cs : list call) (w : World) :
  (invokeAll (c :: cs) w).1 = (invokeAll cs (invoke c w).1).1.
Proof.
  simpl. unfold mbind, M_bind, bind.
  pose proof (invoke_returns c w) as Hc.
  destruct (invoke c w) as [w' r]. simpl in Hc. by subst r.
Qed.

Lemma invokeAll_app (cs1 cs2 : list call) :
  ∀ w, (invokeAll (cs1 ++ cs2) w).1
       = (invokeAll cs2 (invokeAll cs1 w).1).1.
Proof.
  induction cs1 as [|c cs1 IH]; intros w; [done|].
  rewrite <- app_comm_cons, !invokeAll_cons. apply IH.
Qed.

Lemma invoke_keeps_error (c : call) (w : World) :
  _isError (accumulator w) = Some true →
  _isError (accumulator (invoke c w).1) = Some true.
Proof. by destruct c. Qed.

Lemma invokeAll_keeps_error (cs : list call) :
  ∀ w, _isError (accumulator w) = Some true →
       _isError (accumulator (invokeAll cs w).1) = Some true.
Proof.
  induction cs as [|c cs IH]; intros w Hw; [done|].
  rewrite invokeAll_cons. by apply IH, invoke_keeps_error.
Qed.

Lemma updateTitles_accumulator (rest : list Tab.t) :
  ∀ (i : nat) (w : World),
    accumulator (updateTitles rest i w).1 = accumulator w.
Proof.
  induction rest as [|tab rest IH]; intros i w; simpl; [done|].
  unfold mbind, M_bind, bind, lift. destruct (updateTitle tab); [|done].
  simpl. by rewrite IH.
Qed.

(** C3. When the captured snapshot lists at least one modal state, the
    payload carries that list in [modalStates] and leaves [pageState]
    null, whatever else the snapshot holds. *)
Theorem serialize_modal_precedence (w : World)
    (ts : TabSnapshot.t ModalState) :
  _tabSnapshot (accumulator w) = Some ts →
  TabSnapshot.modalStates ts ≠ [] →
  ∃ p, serialize w = (w, Normal p) ∧
    JsonResponse.modalStates (Wrapper.content p)
    = Some (TabSnapshot.modalStates ts) ∧
    JsonResponse.pageState (Wrapper.content p) = None.
Proof.
  intros Hts Hm.
  destruct (serialize_fields w) as (j & Hs & _ & _ & _ & _ & _ & _ & Hsnap & _).
  rewrite Hts in Hsnap.
  destruct (TabSnapshot.modalStates ts) as [|m ms]; [done|].
  simpl in Hsnap. destruct Hsnap as [Hp Hmod]. eauto.
Qed.

(** C4. In any run of writer calls that contains an [addError], the call
    appends its line to the result log, [isError()] reads [true] right
    after it and after any further calls, and the payload serialized at
    the end is marked erroneous, inside and on the wrapper. *)
Theorem isError_monotone (w : World) (before after : list call)
    (error : jsstring) :
  let w1 := (invokeAll before w).1 in
  let w2 := (addError error w1).1 in
  let w3 := (invokeAll after w2).1 in
  invokeAll (before ++ AddError error :: after) w = (w3, Normal ()) ∧
  _result (accumulator w2) = _result (accumulator w1) ++ [error] ∧
  isError w2 = (w2, Normal (Some true)) ∧
  isError w3 = (w3, Normal (Some true)) ∧
  ∃ p, serialize w3 = (w3, Normal p) ∧
    Wrapper.isError p = Some true ∧
    JsonResponse.isError (Wrapper.content p) = Some true.
Proof.
  intros w1 w2 w3.
  assert (H3 : _isError (accumulator w3) = Some true).
  { by apply invokeAll_keeps_error. }
  repeat apply conj.
  - apply injective_projections.
    + rewrite invokeAll_app, invokeAll_cons. done.
    + apply invokeAll_returns.
  - done.
  - done.
  - unfold isError, gets. by rewrite H3.
  - destruct (serialize_fields w3) as (j & Hs & _ & _ & He & _).
    eexists. split; [exact Hs|]. simpl. by rewrite He.
Qed.

(** C5. The [tabs] field is non-null only when a snapshot or a tabs
    listing was requested; with exactly one open tab and no tabs-listing
    request it is null; and when one of the two was requested and no tab
    is open, it holds the placeholder message and an empty tab array. *)
Theorem serialize_tabs_field (w : World) :
  ∃ p, serialize w = (w, Normal p) ∧
    (JsonResponse.tabs (Wrapper.content p) ≠ None →
     _includeSnapshot (accumulator w) = true
     ∨ _includeTabs (accumulator w) = true) ∧
    (length (Context.tabs (shared w)) = 1 →
     _includeTabs (accumulator w) = false →
     JsonResponse.tabs (Wrapper.content p) = None) ∧
    (Context.tabs (shared w) = [] →
     _includeSnapshot (accumulator w) = true
     ∨ _includeTabs (accumulator w) = true →
     JsonResponse.tabs (Wrapper.content p)
     = Some {| TabsJson.message := Some noOpenTabsMessage;
               TabsJson.tabs := [] |}).
Proof.
  destruct (serialize_fields w) as (j & Hs & _ & _ & _ & _ & _ & Ht & _).
  eexists. split; [exact Hs|]. simpl. rewrite Ht.
  repeat apply conj.
  - destruct (_includeSnapshot _), (_includeTabs _); simpl; auto.
  - intros Hone Hno. rewrite Hno, orb_false_r.
    destruct (_includeSnapshot _); [|done].
    unfold renderTabsJson. by rewrite Hone.
  - intros Hnil Hreq. rewrite Hnil.
    destruct Hreq as [-> | ->]; rewrite ?orb_true_r; simpl;
      unfold renderTabsJson; simpl; by rewrite ?andb_false_r.
Qed.

(** C7, as amended. The [result] field is the result log itself, an array
    of its lines in order and not their joined text, when the log is not
    empty, and null when it is empty, never an empty array; the [code]
    field is the same over the code log.  The joined text is what the
    accessors [result()] and [code()] return. *)
Theorem serialize_log_fields (w : World) :
  ∃ p, serialize w = (w, Normal p) ∧
    JsonResponse.result (Wrapper.content p)
    = match _result (accumulator w) with
      | [] => JNull
      | _ :: _ => JStrings (_result (accumulator w))
      end ∧
    JsonResponse.code (Wrapper.content p)
    = match _code (accumulator w) with
      | [] => JNull
      | _ :: _ => JStrings (_code (accumulator w))
      end ∧
    JsonResponse.result (Wrapper.content p) ≠ JStrings [] ∧
    JsonResponse.code (Wrapper.content p) ≠ JStrings [] ∧
    result w = (w, Normal (join (_result (accumulator w)))) ∧
    code w = (w, Normal (join (_code (accumulator w)))).
Proof.
  destruct (serialize_fields w) as (j & Hs & _ & _ & _ & Hr & Hc & _).
  eexists. split; [exact Hs|]. simpl. rewrite Hr, Hc.
  unfold result, code, gets.
  destruct (_result (accumulator w)), (_code (accumulator w)); simpl;
    repeat apply conj; done.
Qed.

(** C8. An accumulator without a captured snapshot serializes without
    throwing: [pageState] and [modalStates] are null, and every other
    optional field whose source is unset takes its default (null for
    [result], [code] and [tabs], the empty array for [images], undefined
    for [isError]). *)
Theorem serialize_without_snapshot (w : World) :
  _tabSnapshot (accumulator w) = None →
  ∃ p, serialize w = (w, Normal p) ∧
    JsonResponse.pageState (Wrapper.content p) = None ∧
    JsonResponse.modalStates (Wrapper.content p) = None ∧
    (_result (accumulator w) = [] →
     JsonResponse.result (Wrapper.content p) = JNull) ∧
    (_code (accumulator w) = [] →
     JsonResponse.code (Wrapper.content p) = JNull) ∧
    (_includeSnapshot (accumulator w) = false →
     _includeTabs (accumulator w) = false →
     JsonResponse.tabs (Wrapper.content p) = None) ∧
    (_images (accumulator w) = [] →
     JsonResponse.images (Wrapper.content p) = []) ∧
    (_isError (accumulator w) = None →
     JsonResponse.isError (Wrapper.content p) = None ∧
     Wrapper.isError p = None).
Proof.
  intros Hts.
  destruct (serialize_fields w)
    as (j & Hs & _ & _ & He & Hr & Hc & Ht & Hsnap & Hi).
  rewrite Hts in Hsnap. destruct Hsnap as [Hp Hm].
  eexists. split; [exact Hs|]. simpl.
  rewrite Hp, Hm, Hr, Hc, Ht, Hi, He. split_and!; try done.
  - by intros ->.
  - by intros ->.
  - by intros -> ->.
  - intros ->. by destruct (bool_decide _).
Qed.

(** C9. [finish] leaves every field of the accumulator but [_tabSnapshot]
    as it was, whether it returns or throws.  It writes [_tabSnapshot]
    only when a snapshot was requested and the context reports a current
    tab, and then stores what the capture resolved to; in every other case
    [_tabSnapshot] keeps its value, so an unset one stays unset. *)
Theorem finish_frame (w : World) :
  let w' := (finish w).1 in
  (_result (accumulator w') = _result (accumulator w) ∧
   _code (accumulator w') = _code (accumulator w) ∧
   _images (accumulator w') = _images (accumulator w) ∧
   _includeSnapshot (accumulator w') = _includeSnapshot (accumulator w) ∧
   _includeTabs (accumulator w') = _includeTabs (accumulator w) ∧
   toolName (accumulator w') = toolName (accumulator w) ∧
   toolArgs (accumulator w') = toolArgs (accumulator w) ∧
   _isError (accumulator w') = _isError (accumulator w)) ∧
  (_tabSnapshot (accumulator w') ≠ _tabSnapshot (accumulator w) →
   _includeSnapshot (accumulator w) = true
   ∧ is_Some (Context.currentTab (shared w))) ∧
  (∀ tab snapshot,
     _includeSnapshot (accumulator w) = true →
     Context.currentTab (shared w) = Some tab →
     captureSnapshot tab = Normal snapshot →
     _tabSnapshot (accumulator w') = Some snapshot) ∧
  (_includeSnapshot (accumulator w) = false
   ∨ Context.currentTab (shared w) = None →
   _tabSnapshot (accumulator w') = _tabSnapshot (accumulator w)
   ∧ (_tabSnapshot (accumulator w) = None →
      tabSnapshot w' = (w', Normal None))).
Proof.
  destruct w as [this context]. simpl.
  unfold finish, mbind, M_bind, bind, gets, lift, ret. simpl.
  destruct (_includeSnapshot this) eqn:Hinc; simpl.
  - destruct (Context.currentTab context) as [tab|] eqn:Hcur; simpl.
    + unfold Context.currentTabOrDie. rewrite Hcur.
      destruct (captureSnapshot tab) as [snapshot|e] eqn:Hcap; simpl.
      * rewrite updateTitles_accumulator. simpl.
        repeat apply conj; try done.
        -- intros tab' snapshot' _ ? ?. congruence.
        -- by intros [|].
      * repeat apply conj; try done.
        -- intros tab' snapshot' _ ? ?. congruence.
        -- by intros [|].
    + rewrite updateTitles_accumulator. simpl.
      repeat apply conj; try done.
      intros _. split; [done|]. intros Hnone.
      unfold tabSnapshot, gets.
      rewrite updateTitles_accumulator. simpl. by rewrite Hnone.
  - rewrite updateTitles_accumulator. simpl.
    repeat apply conj; try done.
    intros _. split; [done|]. intros Hnone.
    unfold tabSnapshot, gets.
    rewrite updateTitles_accumulator. simpl. by rewrite Hnone.
Qed.

(** C10. [serialize] writes nothing: the store after the call is the
    store before it, so a second call answers as the first.  It returns a
    wrapper whose [isError] is the payload's [isError], and what it returns
    depends only on the accumulator, on the open tabs and on the
    image-response setting. *)
Theorem serialize_read_only_deterministic :
  (∀ w : World, (serialize w).1 = w) ∧
  (∀ w : World, serialize (serialize w).1 = serialize w) ∧
  (∀ w : World, ∃ p, (serialize w).2 = Normal p ∧
     Wrapper.isError p = JsonResponse.isError (Wrapper.content p)) ∧
  (∀ w1 w2 : World,
     accumulator w1 = accumulator w2 →
     Context.tabs (shared w1) = Context.tabs (shared w2) →
     Config.imageResponses (Context.config (shared w1))
     = Config.imageResponses (Context.config (shared w2)) →
     (serialize w1).2 = (serialize w2).2).
Proof.
  split_and!.
  - intros w. destruct (serialize_returns w) as [p ->]. done.
  - intros w. destruct (serialize_returns w) as [p Hp].
    by rewrite Hp.
  - intros w. destruct (serialize_fields w) as (j & -> & _ & _ & He & _).
    eexists. split; [done|]. simpl. by rewrite He.
  - intros [this1 context1] [this2 context2]. simpl.
    intros -> Htabs Himg.
    unfold serialize, mbind, M_bind, bind, gets, lift, ret. simpl.
    rewrite Htabs, Himg.
    destruct (_tabSnapshot this2) as [ts|]; simpl; [|done].
    destruct (0 <? length (TabSnapshot.modalStates ts)); simpl; [done|].
    by destruct (renderTabSnapshotJson (Some ts)).
Qed.

End Accumulator.

(** ** Sample runs *)

Lemma serialize_modal_precedence_witness :
  ∃ p, @Response.serialize sampleDriver dialogWorld = (dialogWorld, Normal p) ∧
    JsonResponse.modalStates (Wrapper.content p) = Some [js "alert dialog"] ∧
    JsonResponse.pageState (Wrapper.content p) = None.
Proof.
  apply (@serialize_modal_precedence sampleDriver dialogWorld dialogSnapshot).
  - reflexivity.
  - simpl. discriminate.
Defined.

Lemma serialize_tabs_field_witness :
  (∃ p, @Response.serialize sampleDriver tabListWorld = (tabListWorld, Normal p) ∧
     JsonResponse.tabs (Wrapper.content p)
     = Some {| TabsJson.message := Some noOpenTabsMessage;
               TabsJson.tabs := [] |}) ∧
  (∃ p, @Response.serialize sampleDriver snapshotWorld
        = (snapshotWorld, Normal p) ∧
     JsonResponse.tabs (Wrapper.content p) = None).
Proof.
  split.
  - destruct (@serialize_tabs_field sampleDriver tabListWorld)
      as (p & Hs & _ & _ & Hzero).
    exists p. split; [exact Hs|].
    apply Hzero; [reflexivity | right; reflexivity].
  - destruct (@serialize_tabs_field sampleDriver snapshotWorld)
      as (p & Hs & _ & Hone & _).
    exists p. split; [exact Hs|].
    apply Hone; reflexivity.
Defined.

(** C7, as stated, fails: after two [addResult] calls the [result] field is
    the array of the two lines, not their joined text. *)
Lemma log_fields_not_joined : ¬ @logFieldsJoined sampleDriver twoLinesWorld.
Proof.
  intros Hclaim.
  destruct (@serialize_fields sampleDriver twoLinesWorld)
    as (j & Hs & _ & _ & _ & Hr & _).
  destruct (Hclaim _ Hs) as [Hjoined _].
  simpl in Hjoined. rewrite Hr in Hjoined.
  vm_compute in Hjoined. discriminate Hjoined.
Qed.

Lemma serialize_without_snapshot_witness :
  ∃ p, @Response.serialize sampleDriver freshWorld = (freshWorld, Normal p) ∧
    JsonResponse.pageState (Wrapper.content p) = None ∧
    JsonResponse.modalStates (Wrapper.content p) = None ∧
    JsonResponse.result (Wrapper.content p) = JNull ∧
    JsonResponse.code (Wrapper.content p) = JNull ∧
    JsonResponse.tabs (Wrapper.content p) = None ∧
    JsonResponse.images (Wrapper.content p) = [] ∧
    JsonResponse.isError (Wrapper.content p) = None ∧
    Wrapper.isError p = None.
Proof.
  destruct (@serialize_without_snapshot sampleDriver freshWorld)
    as (p & Hs & Hp & Hm & Hr & Hc & Ht & Hi & He); [reflexivity|].
  exists p. split; [exact Hs|].
  split; [exact Hp|]. split; [exact Hm|].
  split; [apply Hr; reflexivity|]. split; [apply Hc; reflexivity|].
  split; [apply Ht; reflexivity|]. split; [apply Hi; reflexivity|].
  apply He; reflexivity.
Defined.

Lemma finish_frame_witness :
  Response._tabSnapshot
    (Response.accumulator (@Response.finish sampleDriver snapshotWorld).1)
  = Some sampleSnapshot ∧
  Response._tabSnapshot
    (Response.accumulator (@Response.finish sampleDriver freshWorld).1)
  = None ∧
  Response._tabSnapshot
    (Response.accumulator (@Response.finish sampleDriver detachedWorld).1)
  = None.
Proof.
  split; [|split].
  - destruct (@finish_frame sampleDriver snapshotWorld) as (_ & _ & Hset & _).
    apply (Hset sampleTab sampleSnapshot); reflexivity.
  - destruct (@finish_frame sampleDriver freshWorld) as (_ & _ & _ & Hkeep).
    destruct Hkeep as [Hkeep _]; [left; reflexivity|]. exact Hkeep.
  - destruct (@finish_frame sampleDriver detachedWorld) as (_ & _ & _ & Hkeep).
    destruct Hkeep as [Hkeep _]; [right; reflexivity|]. exact Hkeep.
Defined.

Lemma serialize_read_only_deterministic_witness :
  (@Response.serialize sampleDriver freshWorld).2
  = (@Response.serialize sampleDriver detachedWorld).2.
Proof.
  destruct (@serialize_read_only_deterministic sampleDriver)
    as (_ & _ & _ & Hdet).
  apply Hdet; reflexivity.
Defined.

(** The filter on the first snapshot of [src/test_filter.js]. *)
Example filter_testSnapshot :
  filterEmptyGenericElementsIntelligent testSnapshot = Normal testFiltered.
Proof. vm_compute. reflexivity. Qed.

Example base64Text_Man : base64Text [77; 97; 110]%N = js "TWFu".
Proof. reflexivity. Qed.

(** The second sample of [src/test_filter.js]: three nested bare nodes are
    dropped and the button after them is kept. *)
Example filter_simpleTest :
  filterEmptyGenericElementsIntelligent
    (join (threeBareLines ++ [quoted "- button " "Click me" " [ref=e4]"]))
  = Normal (quoted "- button " "Click me" " [ref=e4]").
Proof. vm_compute. reflexivity. Qed.

(** The pattern wants the colon right after the reference: a generic line
    with an attribute in between counts as bare, text or not. *)
Example bareNode_with_attribute :
  bareNode (js "- generic [ref=e2] [cursor=pointer]: Hello") = true.
Proof. vm_compute. reflexivity. Qed.

(** A whole invocation in the one-tab session: the snapshot tool asks for a
    snapshot, [finish] captures it, and the payload carries the compacted
    tree, no tabs listing and no error flag. *)
Example snapshot_invocation :
  ∃ p ps,
    (@Response.serialize sampleDriver
       (@Response.finish sampleDriver snapshotWorld).1).2 = Normal p ∧
    JsonResponse.pageState (Wrapper.content p) = Some ps ∧
    PageState.ariaSnapshot ps = testFiltered ∧
    JsonResponse.tabs (Wrapper.content p) = None ∧
    JsonResponse.modalStates (Wrapper.content p) = None ∧
    Wrapper.isError p = None.
Proof. vm_compute. do 2 eexists. repeat split. Qed.

(** * Further properties *)

(** ** The pattern of [hasUsefulContent] *)

Lemma startsWith_app (p r : jsstring) : startsWith (p ++ r) p = true.
Proof.
  induction p as [|a p IH]; [done|].
  change (startsWith ((a :: p) ++ r) (a :: p))
    with ((a =? a)%N && startsWith (p ++ r) p).
  by rewrite N.eqb_refl, IH.
Qed.

Lemma startsWith_inv (p s : jsstring) :
  startsWith s p = true → s = p ++ drop (length p) s.
Proof.
  revert s. induction p as [|a p IH]; intros s; [done|].
  destruct s as [|b s]; [done|].
  change (startsWith (b :: s) (a :: p)) with ((a =? b)%N && startsWith s p).
  intros [Hab Hs]%andb_prop. apply N.eqb_eq in Hab as ->.
  simpl. f_equal. by apply IH.
Qed.

Lemma trimStart_split (s : jsstring) :
  ∃ ws, s = ws ++ trimStart s ∧ Forall (λ c, isWhiteSpace c = true) ws.
Proof.
  induction s as [|c s (ws & Hs & Hws)]; simpl.
  - by exists [].
  - destruct (isWhiteSpace c) eqn:Hc.
    + exists (c :: ws). split; [by rewrite <- app_comm_cons, <- Hs|].
      by constructor.
    + by exists [].
Qed.

Lemma trimStart_head (s : jsstring) (c : N) (s' : jsstring) :
  trimStart s = c :: s' → isWhiteSpace c = false.
Proof.
  induction s as [|d s IH]; simpl; [done|].
  destruct (isWhiteSpace d) eqn:Hd; [done|]. by intros [= <- _].
Qed.

Lemma trimStart_fixed (c : N) (s : jsstring) :
  isWhiteSpace c = false → trimStart (c :: s) = c :: s.
Proof. intros Hc. simpl. by rewrite Hc. Qed.

Lemma trimStart_snoc_not_nil (a : jsstring) (c : N) :
  isWhiteSpace c = false → trimStart (a ++ [c]) ≠ [].
Proof.
  intros Hc. induction a as [|d a IH]; simpl.
  - by rewrite Hc.
  - by destruct (isWhiteSpace d).
Qed.

Lemma str_trim_not_nil (c : N) (s : jsstring) :
  isWhiteSpace c = false → nonEmpty (str_trim (c :: s)) = true.
Proof.
  intros Hc. unfold str_trim. rewrite trimStart_fixed by done.
  unfold trimEnd. change (rev (c :: s)) with (rev s ++ [c]).
  pose proof (trimStart_snoc_not_nil (rev s) c Hc) as Hne.
  destruct (trimStart (rev s ++ [c])) as [|d u] eqn:Hu; [done|].
  change (rev (d :: u)) with (rev u ++ [d]). by destruct (rev u).
Qed.

Lemma str_trim_nonEmpty_trimStart (g : jsstring) :
  nonEmpty (str_trim g) = true → trimStart g ≠ [].
Proof. unfold str_trim. intros Hg Hn. by rewrite Hn in Hg. Qed.

Lemma dotPlusEnd_Some (r g : jsstring) :
  Regex.dotPlusEnd r = Some g ↔
  g = r ∧ r ≠ [] ∧ Forall (λ c, isLineTerminator c = false) r.
Proof.
  unfold Regex.dotPlusEnd. split.
  - destruct (nonEmpty r) eqn:Hne; simpl; [|done].
    destruct (forallb _ r) eqn:Hall; [|done]. intros [= <-].
    split; [done|]. split; [by destruct r|].
    rewrite forallb_forall in Hall. rewrite Forall_forall.
    intros c Hc. apply negb_true_iff, Hall. by apply list_elem_of_In.
  - intros (-> & Hne & Hall).
    assert (forallb (λ c, negb (isLineTerminator c)) r = true) as ->.
    { rewrite forallb_forall. rewrite Forall_forall in Hall.
      intros c Hc. apply negb_true_iff, Hall. by apply list_elem_of_In. }
    by destruct r.
Qed.

Lemma spacesThenGroup_Some (r g : jsstring) :
  Regex.spacesThenGroup r = Some g →
  ∃ ws, r = ws ++ g ∧ Forall (λ c, isWhiteSpace c = true) ws ∧
        g ≠ [] ∧ Forall (λ c, isLineTerminator c = false) g.
Proof.
  revert g. induction r as [|c r IH]; intros g.
  - simpl. by intros (-> & ? & _)%dotPlusEnd_Some.
  - cbn [Regex.spacesThenGroup].
    assert (Hstop : Regex.dotPlusEnd (c :: r) = Some g →
      ∃ ws, c :: r = ws ++ g ∧ Forall (λ c, isWhiteSpace c = true) ws ∧
            g ≠ [] ∧ Forall (λ c, isLineTerminator c = false) g).
    { intros (-> & Hne & Hall)%dotPlusEnd_Some. by exists []. }
    destruct (isWhiteSpace c) eqn:Hc; [|done].
    destruct (Regex.spacesThenGroup r) as [g'|] eqn:Hr; [|done].
    intros [= <-]. destruct (IH g' eq_refl) as (ws & -> & Hws & Hne & Hall).
    exists (c :: ws). repeat split; try done. by constructor.
Qed.

Lemma spacesThenGroup_trimStart (r : jsstring) :
  trimStart r ≠ [] →
  Forall (λ c, isLineTerminator c = false) (trimStart r) →
  Regex.spacesThenGroup r = Some (trimStart r).
Proof.
  induction r as [|c r IH]; [done|]. intros Hne Hall.
  cbn [Regex.spacesThenGroup]. simpl in Hne, Hall |- *.
  destruct (isWhiteSpace c) eqn:Hc.
  - by rewrite IH.
  - by apply dotPlusEnd_Some.
Qed.

Lemma wordStar_Some (u g : jsstring) :
  Regex.wordStar u = Some g →
  ∃ ref r, u = ref ++ r ∧ Forall (λ c, isWordChar c = true) ref ∧
           Regex.closeThenGroup r = Some g.
Proof.
  revert g. induction u as [|d u IH]; intros g.
  - simpl. intros Hg. by exists [], [].
  - cbn [Regex.wordStar]. destruct (isWordChar d) eqn:Hd.
    + destruct (Regex.wordStar u) as [g'|] eqn:Hu.
      * intros [= <-]. destruct (IH g' eq_refl) as (ref & r & -> & Href & Hr).
        exists (d :: ref), r. repeat split; try done. by constructor.
      * by rewrite closeThenGroup_word.
    + intros Hg. by exists [], (d :: u).
Qed.

Lemma wordStar_skip (ref r : jsstring) :
  Forall (λ c, isWordChar c = true) ref →
  Regex.wordStar (ref ++ 93%N :: r) = Regex.closeThenGroup (93%N :: r).
Proof.
  induction 1 as [|c ref Hc _ IH]; [done|].
  rewrite <- app_comm_cons. cbn [Regex.wordStar]. rewrite Hc, IH.
  destruct (Regex.closeThenGroup (93%N :: r)); [done|].
  by apply closeThenGroup_word.
Qed.

Lemma closeThenGroup_Some (r g : jsstring) :
  Regex.closeThenGroup r = Some g →
  ∃ rest, r = js "]:" ++ rest ∧ Regex.spacesThenGroup rest = Some g.
Proof.
  unfold Regex.closeThenGroup.
  destruct (startsWith r (js "]:")) eqn:Hs; [|done].
  apply startsWith_inv in Hs. intros Hg. by exists (drop 2 r).
Qed.

Lemma hasTextAfterColon_genericWithText (t : jsstring) :
  hasTextAfterColon t = true ↔ genericWithText t.
Proof.
  unfold hasTextAfterColon, genericWithText, Regex.matchGeneric. split.
  - destruct (startsWith t (js "- generic [ref=")) eqn:Hs; [|done].
    apply startsWith_inv in Hs.
    change (length (js "- generic [ref=")) with 15 in Hs.
    destruct (Regex.wordPlus (drop 15 t)) as [g|] eqn:Hw; [|done].
    intros Hg. unfold Regex.wordPlus in Hw.
    destruct (drop 15 t) as [|c u] eqn:Hu; [done|].
    destruct (isWordChar c) eqn:Hc; [|done].
    apply wordStar_Some in Hw as (ref & r & -> & Href & Hr).
    apply closeThenGroup_Some in Hr as (rest & -> & Hrest).
    apply spacesThenGroup_Some in Hrest as (ws & -> & Hws & Hne & Hall).
    exists (c :: ref), (ws ++ g). split; [by rewrite Hs at 1|].
    split; [done|]. split; [by constructor|].
    rewrite trimStart_whitespace_app by done.
    split; [by apply str_trim_nonEmpty_trimStart|].
    destruct (trimStart_split g) as (ws' & Heq & _).
    rewrite Heq in Hall. by apply Forall_app in Hall as [_ ?].
  - intros (ref & rest & -> & Hne & Href & Hrest & Hall).
    rewrite startsWith_app.
    change (drop 15 (js "- generic [ref=" ++ ref ++ js "]:" ++ rest))
      with (ref ++ 93%N :: 58%N :: rest).
    destruct Href as [|c ref Hc Href]; [done|].
    rewrite <- app_comm_cons. cbn [Regex.wordPlus]. rewrite Hc.
    rewrite wordStar_skip by done. unfold Regex.closeThenGroup.
    change (startsWith (93%N :: 58%N :: rest) (js "]:")) with true.
    change (drop 2 (93%N :: 58%N :: rest)) with rest.
    cbn match. rewrite spacesThenGroup_trimStart by done.
    destruct (trimStart rest) as [|d u] eqn:Hd; [done|].
    apply str_trim_not_nil. by eapply trimStart_head.
Qed.

(** ** More on the compactor *)



Lemma join_sublist_length (a b : list jsstring) :
  a `sublist_of` b → length (join a) ≤ length (join b).
Proof.
  induction 1 as [|x a b Hab IH|x a b Hab IH].
  - done.
  - destruct a as [|y a].
    + destruct b as [|z b]; [done|].
      rewrite (join_cons x (z :: b)) by done. rewrite length_app.
      cbn [join]. lia.
    + destruct b as [|z b]; [by apply sublist_nil_r in Hab|].
      rewrite (join_cons x (y :: a)), (join_cons x (z :: b)) by done.
      rewrite !length_app. cbn [length]. lia.
  - destruct b as [|z b].
    + apply sublist_nil_r in Hab as ->. cbn [join length]. lia.
    + rewrite (join_cons x (z :: b)) by done. rewrite length_app.
      cbn [length]. lia.
Qed.

(** X1. A generic line stands on its own exactly when its trimmed text is
    the marker, a non-empty run of word characters, ["]:"] and a rest that,
    past its leading white space, is not empty and has no line terminator.
    Such a line is kept whatever follows it; a line that starts with the
    marker and is not of this form is a bare node. *)
Theorem generic_line_with_text (line : jsstring) :
  (hasTextAfterColon (str_trim line) = true ↔ genericWithText (str_trim line)) ∧
  (bareNode line = true ↔
   startsWith (str_trim line) (js "- generic [ref=") = true
   ∧ ¬ genericWithText (str_trim line)) ∧
  (genericWithText (str_trim line) →
   ∀ (lines : list jsstring) (i : nat),
     lines !! i = Some line → keepLine lines i = true).
Proof.
  pose proof (hasTextAfterColon_genericWithText (str_trim line)) as Hiff.
  split_and!.
  - exact Hiff.
  - unfold bareNode. rewrite andb_true_iff, negb_true_iff.
    rewrite <- Hiff. by rewrite not_true_iff_false.
  - intros Htext lines i Hi. unfold keepLine.
    rewrite Hi, (usefulAt_usefulLine _ _ _ Hi). unfold usefulLine, bareNode.
    apply Hiff in Htext. rewrite Htext, andb_false_r.
    destruct Hiff as [_ Hiff].
    unfold hasTextAfterColon, Regex.matchGeneric in Htext.
    destruct (startsWith (str_trim line) (js "- generic [ref=")) eqn:Hs;
      [|done].
    by rewrite (startsWith_generic_nonEmpty _ Hs), orb_true_r.
Qed.

Lemma generic_line_with_text_witness :
  keepLine siblingLines 1 = true.
Proof.
  destruct (generic_line_with_text (js "- generic [ref=e2]: Title"))
    as (_ & _ & Hkeep).
  apply Hkeep; [|reflexivity].
  exists (js "e2"), (js " Title"). split; [reflexivity|].
  split; [discriminate|]. split.
  - repeat (constructor; [reflexivity|]). constructor.
  - split; [discriminate|].
    repeat (constructor; [reflexivity|]). constructor.
Defined.



(** X3. Compaction never grows the text: the output has at most as many
    code units and at most as many lines as the input. *)
Theorem compactor_output_not_longer (T : jsstring) :
  ∃ out : jsstring,
    filterEmptyGenericElementsIntelligent T = Normal out ∧
    length out ≤ length T ∧
    length (split out) ≤ length (split T).
Proof.
  exists (join (compactLines (split T))).
  split; [apply filter_compactLines|].
  pose proof (compactLines_sublist (split T)) as Hsub.
  split.
  - rewrite <- (join_split T) at 2. by apply join_sublist_length.
  - destruct (compactLines (split T)) as [|l ls] eqn:Hc.
    + pose proof (split_not_nil T). simpl. destruct (split T); [done|].
      simpl. lia.
    + rewrite split_join; [| done |].
      * by apply sublist_length.
      * rewrite <- Hc. apply compactLines_noNewline, split_noNewline.
Qed.

(** X4. A bare node without children is dropped: when it is the last line,
    or when the line after it is not blank and not deeper, nothing that
    comes later can keep it. *)
Theorem childless_bare_node_dropped (lines : list jsstring) (i : nat)
    (line : jsstring) :
  lines !! i = Some line → bareNode line = true →
  (lines !! S i = None
   ∨ ∃ next, lines !! S i = Some next ∧ isBlank next = false
             ∧ indentOf next ≤ indentOf line) →
  keepLine lines i = false ∧ usefulAt lines i = false.
Proof.
  intros Hi Hbare Hnext.
  assert (Hu : usefulAt lines i = false).
  { rewrite (usefulAt_usefulLine _ _ _ Hi). unfold usefulLine. rewrite Hbare.
    destruct Hnext as [Hnone | (next & Hnext & Hnb & Hind)].
    - apply lookup_ge_None in Hnone. by rewrite drop_ge.
    - rewrite (drop_S _ _ _ Hnext). cbn [scanRest].
      unfold isBlank in Hnb. apply negb_false_iff in Hnb. rewrite Hnb.
      by destruct (Nat.leb_spec (indentOf next) (indentOf line)); [|lia]. }
  split; [|done]. unfold keepLine.
  by rewrite Hi, (bareNode_not_blank _ Hbare), Hu.
Qed.

Lemma childless_bare_node_dropped_witness :
  keepLine siblingLines 0 = false ∧ keepLine siblingLines 2 = false.
Proof.
  split.
  - apply (childless_bare_node_dropped siblingLines 0
             (js "- generic [ref=e1]: ")); [reflexivity..|].
    right. exists (js "- generic [ref=e2]: Title").
    split; [reflexivity|]. split; [reflexivity|]. vm_compute. lia.
  - apply (childless_bare_node_dropped siblingLines 2
             (js "  - generic [ref=e3]: ")); [reflexivity..|].
    left. reflexivity.
Defined.

(** ** More on the renderers and the accumulator *)

Lemma trim_length (text : jsstring) (maxLength : nat) :
  length (trim text maxLength) ≤ maxLength + 3.
Proof.
  unfold trim. destruct (Nat.leb_spec (length text) maxLength); [lia|].
  rewrite length_app, length_take. simpl. lia.
Qed.

(** X5. [trim] keeps the first [maxLength] code units, never returns more
    than [maxLength + 3] of them, returns a text that fits unchanged, and
    trimming twice is trimming once. *)
Theorem trim_bounded_idempotent (text : jsstring) (maxLength : nat) :
  length (trim text maxLength) ≤ maxLength + 3 ∧
  take maxLength (trim text maxLength) = take maxLength text ∧
  (length text ≤ maxLength → trim text maxLength = text) ∧
  trim (trim text maxLength) maxLength = trim text maxLength.
Proof.
  unfold trim.
  destruct (Nat.leb_spec (length text) maxLength) as [Hle|Hgt].
  - split_and!; [lia|done|done|].
    by destruct (Nat.leb_spec (length text) maxLength); [|lia].
  - assert (Hlen : length (take maxLength text) = maxLength).
    { rewrite length_take. lia. }
    split_and!.
    + rewrite length_app, Hlen. simpl. lia.
    + rewrite take_app_le by lia. by rewrite take_take, Nat.min_id.
    + lia.
    + rewrite length_app, Hlen.
      destruct (Nat.leb_spec (maxLength + length (js "...")) maxLength)
        as [Hbad|_]; [simpl in Hbad; lia|].
      rewrite take_app_le by lia. by rewrite take_take, Nat.min_id.
Qed.

Lemma trim_bounded_idempotent_witness :
  trim (js "Open") 100 = js "Open".
Proof.
  destruct (trim_bounded_idempotent (js "Open") 100) as (_ & _ & Hfit & _).
  apply Hfit. vm_compute. lia.
Defined.

Section AccumulatorMore.
Context `{Driver}.
Import Response.

Local Arguments renderTabSnapshotJson : simpl never.
Local Arguments renderTabsJson : simpl never.
Local Arguments trim : simpl never.

(** X6. For a captured snapshot [renderTabSnapshotJson] always returns: it
    copies URL and title, compacts the accessibility tree, lists console
    messages only when there are some, one per message and each cut to at
    most 103 code units, and lists downloads only when there are some, one
    entry per download in order. *)
Theorem renderTabSnapshotJson_shape (ts : TabSnapshot.t ModalState) :
  ∃ ps, renderTabSnapshotJson (Some ts) = Normal ps ∧
    PageState.url ps = TabSnapshot.url ts ∧
    PageState.title ps = TabSnapshot.title ts ∧
    filterEmptyGenericElementsIntelligent (TabSnapshot.ariaSnapshot ts)
    = Normal (PageState.ariaSnapshot ps) ∧
    PageState.consoleMessages ps
    = match TabSnapshot.consoleMessages ts with
      | [] => None
      | _ :: _ => Some (map (λ m, trim m 100) (TabSnapshot.consoleMessages ts))
      end ∧
    (∀ msgs, PageState.consoleMessages ps = Some msgs →
       length msgs = length (TabSnapshot.consoleMessages ts) ∧ msgs ≠ [] ∧
       Forall (λ m, length m ≤ 103) msgs) ∧
    PageState.downloads ps
    = match TabSnapshot.downloads ts with
      | [] => None
      | _ :: _ => Some (map downloadJson (TabSnapshot.downloads ts))
      end.
Proof.
  unfold renderTabSnapshotJson. rewrite filter_compactLines.
  destruct ts as [u t a cm dl ms]. cbn -[trim].
  assert (Hcut : ∀ l : list jsstring,
    Forall (λ m, length m ≤ 103) (map (λ m, trim m 100) l)).
  { intros l. apply Forall_forall. intros x [y [-> _]]%list_elem_of_fmap.
    apply (trim_length y 100). }
  eexists. split; [reflexivity|].
  destruct cm as [|m cm], dl as [|d dl]; cbn -[trim]; split_and!; try done.
  all: intros msgs [= <-]; split_and!;
    [cbn [length]; by rewrite length_map|done|apply (Hcut (m :: cm))].
Qed.

(** X7. [renderTabsJson] is silent exactly for one tab without force; for
    one or more tabs it otherwise lists every tab, in order, with its
    position as index and no message. *)
Theorem renderTabsJson_listing (tabs : list Tab.t) (force : bool) :
  (renderTabsJson tabs force = None ↔ length tabs = 1 ∧ force = false) ∧
  (tabs ≠ [] → renderTabsJson tabs force ≠ None →
   ∃ entries,
     renderTabsJson tabs force
     = Some {| TabsJson.message := None; TabsJson.tabs := entries |} ∧
     length entries = length tabs ∧
     ∀ i tab, tabs !! i = Some tab → entries !! i = Some (tabJson i tab)).
Proof.
  unfold renderTabsJson. split.
  - destruct (Nat.eqb_spec (length tabs) 1) as [Hone|Hmany];
      destruct force; simpl.
    + rewrite Hone. simpl. split; [done|]. by intros [_ ?].
    + done.
    + destruct (length tabs =? 0); split; try done; by intros [? _].
    + destruct (length tabs =? 0); split; try done; by intros [? _].
  - intros Hne Hsome.
    destruct ((length tabs =? 1) && negb force); [done|].
    destruct (Nat.eqb_spec (length tabs) 0) as [Hz|_].
    { by destruct tabs. }
    eexists. split; [reflexivity|]. split; [by rewrite length_imap|].
    intros i tab Hi. by rewrite list_lookup_imap, Hi.
Qed.

Lemma pushImages_map (images : list Image.t) :
  ∀ acc, pushImages images acc = acc ++ map imageJson images.
Proof.
  induction images as [|image images IH]; intros acc; simpl.
  - by rewrite app_nil_r.
  - rewrite IH. by rewrite <- app_assoc.
Qed.

(** X8. The payload holds no image when the configuration says [omit], and
    otherwise one entry per attached image, in the order of the calls, each
    tagged [image] with the base64 text of its data and its content type. *)
Theorem serialize_images (w : World) :
  ∃ p, serialize w = (w, Normal p) ∧
    JsonResponse.images (Wrapper.content p)
    = (if bool_decide (Config.imageResponses (Context.config (shared w))
                       = js "omit")
       then [] else map imageJson (_images (accumulator w))) ∧
    (Config.imageResponses (Context.config (shared w)) ≠ js "omit" →
     length (JsonResponse.images (Wrapper.content p))
     = length (_images (accumulator w))).
Proof.
  destruct (serialize_fields w) as (j & Hs & _ & _ & _ & _ & _ & _ & _ & Hi).
  eexists. split; [exact Hs|]. simpl. rewrite Hi, pushImages_map.
  split; [done|]. intros Hno. rewrite bool_decide_eq_false_2 by done.
  cbn [app]. by rewrite length_map.
Qed.

(** X9. The payload never carries both a page state and modal states, and it
    carries one of them exactly when a snapshot was captured: the modal
    states when the snapshot lists some, the rendered page state when it
    lists none. *)
Theorem serialize_page_or_modal (w : World) :
  ∃ p, serialize w = (w, Normal p) ∧
    ¬ (JsonResponse.pageState (Wrapper.content p) ≠ None
       ∧ JsonResponse.modalStates (Wrapper.content p) ≠ None) ∧
    (_tabSnapshot (accumulator w) = None ↔
     JsonResponse.pageState (Wrapper.content p) = None
     ∧ JsonResponse.modalStates (Wrapper.content p) = None) ∧
    (∀ ts, _tabSnapshot (accumulator w) = Some ts →
       TabSnapshot.modalStates ts = [] →
       JsonResponse.modalStates (Wrapper.content p) = None ∧
       ∃ ps, renderTabSnapshotJson (Some ts) = Normal ps ∧
             JsonResponse.pageState (Wrapper.content p) = Some ps).
Proof.
  destruct (serialize_fields w) as (j & Hs & _ & _ & _ & _ & _ & _ & Hsnap & _).
  eexists. split; [exact Hs|]. simpl.
  destruct (_tabSnapshot (accumulator w)) as [ts|].
  - destruct (TabSnapshot.modalStates ts) as [|m ms] eqn:Hm; simpl in Hsnap.
    + destruct Hsnap as (Hmod & ps & Hps & Hpage). rewrite Hmod, Hpage.
      split_and!.
      * by intros [_ ?].
      * split; [done|]. by intros [? _].
      * intros ts' [= <-] _. eauto.
    + destruct Hsnap as [Hpage Hmod]. rewrite Hmod, Hpage. split_and!.
      * by intros [? _].
      * split; [done|]. by intros [_ ?].
      * intros ts' [= <-]. by rewrite Hm.
  - destruct Hsnap as [-> ->]. split_and!.
    + by intros [? _].
    + done.
    + done.
Qed.

Lemma invokeAll_effect (cs : list call) :
  ∀ w,
    invokeAll cs w
    = ({| accumulator :=
            {| _result := _result (accumulator w) ++ resultArgs cs;
               _code := _code (accumulator w) ++ codeArgs cs;
               _images := _images (accumulator w) ++ imageArgs cs;
               _includeSnapshot :=
                 _includeSnapshot (accumulator w)
                 || existsb isSetIncludeSnapshot cs;
               _includeTabs :=
                 _includeTabs (accumulator w) || existsb isSetIncludeTabs cs;
               _tabSnapshot := _tabSnapshot (accumulator w);
               toolName := toolName (accumulator w);
               toolArgs := toolArgs (accumulator w);
               _isError :=
                 if existsb isAddError cs then Some true
                 else _isError (accumulator w) |};
          shared := shared w |}, Normal ()).
Proof.
  induction cs as [|c cs IH]; intros [[r co im sn tb ts tn ta er] ctx].
  - simpl. unfold ret. by rewrite !app_nil_r, !orb_false_r.
  - cbn [invokeAll]. unfold mbind, M_bind, bind.
    destruct c; simpl; rewrite IH; simpl;
      rewrite <- ?app_assoc, ?orb_true_r, ?orb_assoc; try done.
    by destruct (existsb isAddError cs).
Qed.

(** X10. A run of writer calls only appends: the result log grows by the
    arguments of its [addResult] and [addError] calls in call order, the
    code log by those of [addCode], the images by those of [addImage]; the
    two request flags are only ever raised; the error flag is raised exactly
    by an [addError]; the tool identity, the captured snapshot and the
    context are not touched; and no writer throws. *)
Theorem invokeAll_appends (cs : list call) (w : World) :
  let w' := (invokeAll cs w).1 in
  (invokeAll cs w).2 = Normal () ∧
  _result (accumulator w') = _result (accumulator w) ++ resultArgs cs ∧
  _code (accumulator w') = _code (accumulator w) ++ codeArgs cs ∧
  _images (accumulator w') = _images (accumulator w) ++ imageArgs cs ∧
  _includeSnapshot (accumulator w')
  = _includeSnapshot (accumulator w) || existsb isSetIncludeSnapshot cs ∧
  _includeTabs (accumulator w')
  = _includeTabs (accumulator w) || existsb isSetIncludeTabs cs ∧
  _isError (accumulator w')
  = (if existsb isAddError cs then Some true else _isError (accumulator w)) ∧
  _tabSnapshot (accumulator w') = _tabSnapshot (accumulator w) ∧
  toolName (accumulator w') = toolName (accumulator w) ∧
  toolArgs (accumulator w') = toolArgs (accumulator w) ∧
  shared w' = shared w.
Proof. rewrite invokeAll_effect. simpl. by split_and!. Qed.

End AccumulatorMore.

(** ** The finish protocol, step by step *)

Section FinishProtocol.
Context `{Driver}.
Import Response.

Local Arguments renderTabSnapshotJson : simpl never.
Local Arguments renderTabsJson : simpl never.

Lemma with_tabs_same (w : World) :
  {| accumulator := accumulator w;
     shared := Context.with_tabs (Context.tabs (shared w)) (shared w) |} = w.
Proof. by destruct w as [a [t c g]]. Qed.

Lemma updateTitles_refresh (rest : list Tab.t) :
  ∀ (done news : list Tab.t) (w : World),
    Context.tabs (shared w) = done ++ rest →
    Forall2 (λ t t', updateTitle t = Normal t') rest news →
    updateTitles rest (length done) w
    = ({| accumulator := accumulator w;
          shared := Context.with_tabs (done ++ news) (shared w) |},
       Normal ()).
Proof.
  induction rest as [|t rest IH]; intros done news w Htabs Hall.
  - apply Forall2_nil_inv_l in Hall as ->. simpl. unfold ret.
    rewrite app_nil_r in *. by rewrite <- Htabs, with_tabs_same.
  - apply Forall2_cons_inv_l in Hall as (t' & news' & Ht & Hall & ->).
    cbn [updateTitles]. unfold mbind, M_bind, bind, lift, modifyContext.
    rewrite Ht. cbn beta iota.
    replace (S (length done)) with (length (done ++ [t']))
      by (rewrite length_app; simpl; lia).
    rewrite IH with (news := news').
    + simpl. unfold Context.with_tabs. simpl. by rewrite <- app_assoc.
    + simpl. rewrite Htabs.
      replace (length done) with (length done + 0) by lia.
      rewrite insert_app_r. simpl. by rewrite <- app_assoc.
    + done.
Qed.


(** What the capture step of [finish] leaves in the accumulator when it does
    not throw. *)
Lemma finish_after_capture (w : World) (this' : t) :
  (_includeSnapshot (accumulator w) = false ∧ this' = accumulator w)
  ∨ (Context.currentTab (shared w) = None ∧ this' = accumulator w)
  ∨ (∃ tab snapshot,
       _includeSnapshot (accumulator w) = true ∧
       Context.currentTab (shared w) = Some tab ∧
       captureSnapshot tab = Normal snapshot ∧
       this' = set_tabSnapshot (Some snapshot) (accumulator w)) →
  finish w
  = updateTitles (Context.tabs (shared w)) 0
      {| accumulator := this'; shared := shared w |}.
Proof.
  destruct w as [this context]. simpl.
  unfold finish, mbind, M_bind, bind, gets, lift, ret. simpl.
  intros [[Hinc ->] | [[Hcur ->] | (tab & snapshot & Hinc & Hcur & Hcap & ->)]].
  - by rewrite Hinc.
  - rewrite Hcur. by destruct (_includeSnapshot this).
  - rewrite Hinc, Hcur. simpl. unfold Context.currentTabOrDie.
    by rewrite Hcur, Hcap.
Qed.

(** X11. When a snapshot was requested, a current tab exists and the
    capture is rejected, [finish] throws that rejection and has done
    nothing: the accumulator and every tab title are as before. *)
Theorem finish_capture_failure (w : World) (tab : Tab.t) (e : exn) :
  _includeSnapshot (accumulator w) = true →
  Context.currentTab (shared w) = Some tab →
  captureSnapshot tab = Throw e →
  finish w = (w, Throw e).
Proof.
  destruct w as [this context]. simpl. intros Hinc Hcur Hcap.
  unfold finish, mbind, M_bind, bind, gets, lift, ret. simpl.
  rewrite Hinc, Hcur. simpl. unfold Context.currentTabOrDie.
  by rewrite Hcur, Hcap.
Qed.



(** X14. Serializing after a [finish] whose driver calls all resolved: the
    payload keeps the error flag and the logs of the tool, so a recorded
    failure still comes with its snapshot; the page state (or, with open
    dialogs, the modal states) is that of the snapshot just captured; and a
    tabs listing is rendered from the refreshed tabs. *)
Theorem finish_then_serialize (w : World) (tab : Tab.t)
    (snapshot : TabSnapshot.t ModalState) (news : list Tab.t) :
  _includeSnapshot (accumulator w) = true →
  Context.currentTab (shared w) = Some tab →
  captureSnapshot tab = Normal snapshot →
  Forall2 (λ t t', updateTitle t = Normal t') (Context.tabs (shared w)) news →
  ∃ w' p,
    finish w = (w', Normal ()) ∧ serialize w' = (w', Normal p) ∧
    Wrapper.isError p = _isError (accumulator w) ∧
    JsonResponse.result (Wrapper.content p)
    = (if 0 <? length (_result (accumulator w))
       then JStrings (_result (accumulator w)) else JNull) ∧
    JsonResponse.tabs (Wrapper.content p)
    = renderTabsJson news (_includeTabs (accumulator w)) ∧
    (TabSnapshot.modalStates snapshot = [] →
     JsonResponse.modalStates (Wrapper.content p) = None ∧
     ∃ ps, renderTabSnapshotJson (Some snapshot) = Normal ps ∧
           JsonResponse.pageState (Wrapper.content p) = Some ps) ∧
    (TabSnapshot.modalStates snapshot ≠ [] →
     JsonResponse.pageState (Wrapper.content p) = None ∧
     JsonResponse.modalStates (Wrapper.content p)
     = Some (TabSnapshot.modalStates snapshot)).
Proof.
  intros Hinc Hcur Hcap Hall.
  rewrite (finish_after_capture w
             (set_tabSnapshot (Some snapshot) (accumulator w)))
    by (right; right; exists tab, snapshot; done).
  rewrite (updateTitles_refresh _ [] news) by done.
  match goal with |- ∃ w' p, (?x, _) = _ ∧ _ => set (w1 := x) end.
  destruct (serialize_fields w1)
    as (j & Hs & _ & _ & _ & Hr & _ & Ht & Hsnap & _).
  exists w1. eexists. split; [done|]. split; [exact Hs|].
  subst w1. simpl in *. rewrite Hr, Ht, Hinc. split_and!; try done.
  - intros Hm. rewrite Hm in Hsnap. simpl in Hsnap.
    destruct Hsnap as (? & ps & ? & ?). eauto.
  - intros Hm. destruct (TabSnapshot.modalStates snapshot); [done|].
    by destruct Hsnap.
Qed.

End FinishProtocol.

(** ** More sample runs *)

Lemma renderTabSnapshotJson_shape_witness :
  length [trim (js "ready") 100] = 1 ∧
  Forall (λ m : jsstring, length m ≤ 103) [trim (js "ready") 100].
Proof.
  destruct (@renderTabSnapshotJson_shape sampleDriver dialogSnapshot)
    as (ps & _ & _ & _ & _ & Hcm & Hbound & _).
  destruct (Hbound [trim (js "ready") 100]) as (Hlen & _ & Hall).
  - exact Hcm.
  - split; [exact Hlen | exact Hall].
Defined.

Lemma renderTabsJson_listing_witness :
  ∃ entries,
    renderTabsJson [sampleTab; backgroundTab] false
    = Some {| TabsJson.message := None; TabsJson.tabs := entries |} ∧
    length entries = 2 ∧
    ∀ i tab, [sampleTab; backgroundTab] !! i = Some tab →
             entries !! i = Some (tabJson i tab).
Proof.
  destruct (renderTabsJson_listing [sampleTab; backgroundTab] false)
    as [_ Hlist].
  apply Hlist.
  - discriminate.
  - vm_compute. discriminate.
Defined.

Lemma serialize_images_witness :
  ∃ p, @Response.serialize sampleDriver oneImageWorld
       = (oneImageWorld, Normal p) ∧
    length (JsonResponse.images (Wrapper.content p)) = 1.
Proof.
  destruct (@serialize_images sampleDriver oneImageWorld)
    as (p & Hs & _ & Hlen).
  exists p. split; [exact Hs|]. apply Hlen. vm_compute. discriminate.
Defined.

Lemma serialize_page_or_modal_witness :
  ∃ p, @Response.serialize sampleDriver capturedWorld
       = (capturedWorld, Normal p) ∧
    JsonResponse.modalStates (Wrapper.content p) = None ∧
    ∃ ps, renderTabSnapshotJson (Some sampleSnapshot) = Normal ps ∧
          JsonResponse.pageState (Wrapper.content p) = Some ps.
Proof.
  destruct (@serialize_page_or_modal sampleDriver capturedWorld)
    as (p & Hs & _ & _ & Hpage).
  exists p. split; [exact Hs|].
  apply (Hpage sampleSnapshot); reflexivity.
Defined.

Lemma finish_capture_failure_witness :
  @Response.finish failingDriver crashWorld
  = (crashWorld, Throw (DriverError (js "page crashed"))).
Proof.
  apply (@finish_capture_failure failingDriver crashWorld sampleTab);
    reflexivity.
Defined.



Lemma finish_then_serialize_witness :
  ∃ w' p,
    @Response.finish sampleDriver failedClickWorld = (w', Normal ()) ∧
    @Response.serialize sampleDriver w' = (w', Normal p) ∧
    Wrapper.isError p = Some true ∧
    ∃ ps, JsonResponse.pageState (Wrapper.content p) = Some ps.
Proof.
  destruct (@finish_then_serialize sampleDriver failedClickWorld sampleTab
              sampleSnapshot [sampleTab])
    as (w' & p & Hf & Hs & He & _ & _ & Hpage & _).
  - reflexivity.
  - reflexivity.
  - reflexivity.
  - repeat constructor.
  - exists w', p. split; [exact Hf|]. split; [exact Hs|].
    split; [exact He|].
    destruct Hpage as (_ & ps & _ & Hps); [reflexivity|].
    exists ps. exact Hps.
Defined.

(** ** Tool handlers *)

Section HandlerProperties.
Context `{Driver} `{Runtime}.
Import Response.

Local Arguments js : simpl never.

(** X15. [browser_check_checkbox] never throws and always adds exactly one
    result line.  When its driver calls all resolve it adds one code line,
    requests a snapshot and leaves the error flag alone; when one of them is
    rejected the error flag is raised, and neither a code line nor a
    snapshot request is added.  Images, the captured snapshot and the
    context are never touched. *)
Theorem checkCheckbox_outcome {Locator : Type}
    (refLocator : completion Locator)
    (check uncheck : Locator → completion unit)
    (generateLocator : Locator → completion jsstring)
    (checked : bool) (w : World) :
  let ok := checkSucceeds refLocator check uncheck generateLocator checked in
  let r := Tool.checkCheckbox refLocator check uncheck generateLocator
             checked w in
  r.2 = Normal () ∧
  shared r.1 = shared w ∧
  length (_result (accumulator r.1)) = S (length (_result (accumulator w))) ∧
  length (_code (accumulator r.1))
  = (if ok then 1 else 0) + length (_code (accumulator w)) ∧
  _includeSnapshot (accumulator r.1)
  = _includeSnapshot (accumulator w) || ok ∧
  _isError (accumulator r.1)
  = (if ok then _isError (accumulator w) else Some true) ∧
  _images (accumulator r.1) = _images (accumulator w) ∧
  _tabSnapshot (accumulator r.1) = _tabSnapshot (accumulator w).
Proof.
  destruct w as [[r co im sn tb ts tn ta er] ctx].
  unfold Tool.checkCheckbox, Tool.tryCatch, checkSucceeds.
  unfold mbind, M_bind, bind, lift, addCode, addResult, addError,
    setIncludeSnapshot, modifyThis.
  destruct refLocator as [locator|e]; simpl.
  - destruct checked; simpl.
    + destruct (check locator) as [[]|e]; simpl;
        [destruct (generateLocator locator) as [g|e]; simpl|];
        rewrite ?length_app, ?orb_true_r, ?orb_false_r; simpl;
        split_and!; try done; lia.
    + destruct (uncheck locator) as [[]|e]; simpl;
        [destruct (generateLocator locator) as [g|e]; simpl|];
        rewrite ?length_app, ?orb_true_r, ?orb_false_r; simpl;
        split_and!; try done; lia.
  - rewrite ?length_app, ?orb_false_r; simpl. split_and!; try done; lia.
Qed.

(** X16. [browser_click] requests a snapshot before anything else, so the
    request stands even when the click throws.  It records no result and no
    error of its own: a rejected driver call is thrown on to the caller, the
    first one in call order.  Its code line is added as soon as the locator
    and its text resolve, before the click is performed. *)
Theorem click_outcome {Locator : Type}
    (refLocator : completion Locator)
    (generateLocator : Locator → completion jsstring)
    (performClick : Locator → completion unit)
    (doubleClick : bool) (button : option jsstring) (w : World) :
  let r := Tool.click refLocator generateLocator performClick doubleClick
             button w in
  r.2 = clickCompletion refLocator generateLocator performClick ∧
  _includeSnapshot (accumulator r.1) = true ∧
  _result (accumulator r.1) = _result (accumulator w) ∧
  _isError (accumulator r.1) = _isError (accumulator w) ∧
  length (_code (accumulator r.1))
  = (if clickCoded refLocator generateLocator then 1 else 0)
    + length (_code (accumulator w)) ∧
  shared r.1 = shared w.
Proof.
  destruct w as [[r co im sn tb ts tn ta er] ctx].
  unfold Tool.click, clickCompletion, clickCoded.
  unfold mbind, M_bind, bind, lift, addCode, setIncludeSnapshot, modifyThis.
  destruct refLocator as [locator|e]; simpl; [|done].
  destruct doubleClick; simpl;
    destruct (generateLocator locator) as [g|e]; simpl; try done;
    destruct (performClick locator) as [[]|e]; simpl;
    rewrite ?length_app; simpl; split_and!; try done; lia.
Qed.

(** X17. [browser_scroll_to] never throws and always adds exactly one
    result line.  It adds a code line and requests a snapshot exactly when
    the scroll it chose was performed and described; otherwise the error
    flag is raised.  Without an element and its reference and without both
    coordinates the added line is
    [Either provide element+ref OR x+y coordinates]. *)
Theorem scrollTo_outcome {Locator : Type}
    (refLocator : completion Locator)
    (scrollIntoView : Locator → completion unit)
    (generateLocator : Locator → completion jsstring)
    (evaluateScroll : completion unit)
    (element ref : option jsstring) (x y : option Number)
    (behavior : jsstring) (w : World) :
  let ok := scrollSucceeds refLocator scrollIntoView generateLocator
              evaluateScroll element ref x y in
  let r := Tool.scrollTo refLocator scrollIntoView generateLocator
             evaluateScroll element ref x y behavior w in
  r.2 = Normal () ∧
  length (_result (accumulator r.1)) = S (length (_result (accumulator w))) ∧
  length (_code (accumulator r.1))
  = (if ok then 1 else 0) + length (_code (accumulator w)) ∧
  _includeSnapshot (accumulator r.1)
  = _includeSnapshot (accumulator w) || ok ∧
  _isError (accumulator r.1)
  = (if ok then _isError (accumulator w) else Some true) ∧
  (truthy element && truthy ref = false → x = None ∨ y = None →
   _result (accumulator r.1)
   = _result (accumulator w)
     ++ [js "Either provide element+ref OR x+y coordinates"]).
Proof.
  destruct w as [[r co im sn tb ts tn ta er] ctx].
  unfold Tool.scrollTo, Tool.tryCatch, scrollSucceeds.
  unfold mbind, M_bind, bind, lift, ret, addCode, addResult, addError,
    setIncludeSnapshot, modifyThis.
  destruct (truthy element && truthy ref) eqn:Hel; simpl.
  - destruct refLocator as [locator|e]; simpl;
      [destruct (scrollIntoView locator) as [[]|e]; simpl;
       [destruct (generateLocator locator) as [g|e]; simpl|]|];
      rewrite ?length_app, ?orb_true_r, ?orb_false_r; simpl;
      split_and!; try done; lia.
  - destruct x as [x|], y as [y|]; simpl;
      try destruct evaluateScroll as [[]|e]; simpl;
      rewrite ?length_app, ?orb_true_r, ?orb_false_r; simpl;
      split_and!; try done; try lia.
    all: by intros _ [|].
Qed.

Lemma snapshot_state_covered (state : option jsstring) :
  Tool.visibleOrAttached (Tool.stateOrVisible state)
  || Tool.neitherVisibleNorAttached state = true.
Proof.
  unfold Tool.neitherVisibleNorAttached.
  destruct (bool_decide_reflect (state = Some (js "visible"))) as [->|_].
  { done. }
  destruct (bool_decide_reflect (state = Some (js "attached"))) as [->|_].
  { done. }
  by rewrite orb_true_r.
Qed.

Local Opaque js.

(** X18. [browser_wait_for] throws before it writes anything: without a
    time, a text, a vanishing text or an element to wait for, with an
    element and no reference, or with a reference and no element.  Whenever
    the handler throws, for these reasons or because a text wait was
    rejected, the accumulator is as it was. *)
Theorem wait_throws_untouched {Locator : Type}
    (goneWaitFor textWaitFor : completion unit)
    (refLocator : completion Locator)
    (elementWaitFor : Locator → completion unit)
    (generateLocator : Locator → completion jsstring)
    (time : option Number) (text textGone element ref state : option jsstring)
    (timeout : option Number) (w : World) :
  let r := Tool.wait goneWaitFor textWaitFor refLocator elementWaitFor
             generateLocator time text textGone element ref state timeout w in
  (truthy text = false → truthy textGone = false →
   Tool.truthyNumber time = false → truthy element = false →
   r = (w, Throw (Error
     (js "Either time, text, textGone, or element must be provided")))) ∧
  (truthy element = true → truthy ref = false →
   r = (w, Throw (Error
     (js "ref parameter is required when element is provided")))) ∧
  (truthy ref = true → truthy element = false →
   ∃ e, r = (w, Throw e)) ∧
  (∀ e, r.2 = Throw e → r.1 = w).
Proof.
  unfold Tool.wait, Tool.throw, Tool.tryCatch.
  unfold mbind, M_bind, bind, lift, ret, addCode, addResult, addError,
    setIncludeSnapshot, modifyThis.
  split_and!.
  - by intros -> -> -> ->.
  - intros -> ->. simpl. by rewrite !andb_false_r.
  - intros -> ->. simpl. rewrite !andb_true_r.
    destruct (negb (truthy text) && negb (truthy textGone)
              && negb (Tool.truthyNumber time)); eauto.
  - intros e.
    destruct (truthy text), (truthy textGone), (Tool.truthyNumber time),
      (truthy element), (truthy ref); simpl; try done;
      try destruct goneWaitFor as [[]|e1]; simpl; try done;
      try destruct textWaitFor as [[]|e2]; simpl; try done;
      try destruct refLocator as [locator|e3]; simpl; try done;
      try destruct (elementWaitFor locator) as [[]|e4]; simpl; try done;
      try destruct (generateLocator locator) as [g|e5]; simpl; try done;
      try destruct (Tool.visibleOrAttached _); simpl; try done;
      try destruct (Tool.neitherVisibleNorAttached _); simpl; try done.
Qed.

(** X19. When [browser_wait_for] returns, it has added exactly one result
    line.  If no element wait was asked for, or the element wait went
    through, that line is the [Waited for ...] message, a snapshot is
    requested whatever the awaited state was, and the error flag is left
    alone; if the element wait failed, the error flag is raised and no
    snapshot request is added.  A code line is added for a
    successful element wait only: the lines prepared for timed and text
    waits are never recorded. *)
Theorem wait_outcome {Locator : Type}
    (goneWaitFor textWaitFor : completion unit)
    (refLocator : completion Locator)
    (elementWaitFor : Locator → completion unit)
    (generateLocator : Locator → completion jsstring)
    (time : option Number) (text textGone element ref state : option jsstring)
    (timeout : option Number) (w : World) :
  let ok := waitElementOk refLocator elementWaitFor generateLocator
              element ref in
  let r := Tool.wait goneWaitFor textWaitFor refLocator elementWaitFor
             generateLocator time text textGone element ref state timeout w in
  r.2 = Normal () →
  length (_result (accumulator r.1)) = S (length (_result (accumulator w))) ∧
  _includeSnapshot (accumulator r.1) = _includeSnapshot (accumulator w) || ok ∧
  _isError (accumulator r.1)
  = (if ok then _isError (accumulator w) else Some true) ∧
  length (_code (accumulator r.1))
  = (if truthy element && ok then 1 else 0)
    + length (_code (accumulator w)) ∧
  (ok = true →
   _result (accumulator r.1)
   = _result (accumulator w)
     ++ [js "Waited for "
         ++ joinWith (js ", ")
              (Tool.waitedFor time text textGone element state)]).
Proof.
  destruct w as [[r co im sn tb ts tn ta er] ctx].
  pose proof (snapshot_state_covered state) as Hstate.
  unfold Tool.wait, Tool.throw, Tool.tryCatch, waitElementOk.
  unfold mbind, M_bind, bind, lift, ret, addCode, addResult, addError,
    setIncludeSnapshot, modifyThis.
  destruct (truthy element) eqn:He, (truthy ref) eqn:Hr; simpl;
    rewrite ?andb_true_r, ?andb_false_r; simpl; try done.
  - destruct (truthy textGone); simpl;
      try destruct goneWaitFor as [[]|e1]; simpl; try done;
      destruct (truthy text); simpl;
      try destruct textWaitFor as [[]|e2]; simpl; try done;
      destruct refLocator as [locator|e3]; simpl;
      try destruct (elementWaitFor locator) as [[]|e4]; simpl;
      try destruct (generateLocator locator) as [g|e5]; simpl;
      try destruct (Tool.visibleOrAttached _); simpl;
      try destruct (Tool.neitherVisibleNorAttached _); simpl;
      rewrite ?length_app, ?orb_true_r, ?orb_false_r; simpl;
      intros _; split_and!; try done; lia.
  - by destruct (negb (truthy text) && negb (truthy textGone)
                 && negb (Tool.truthyNumber time)).
  - destruct (negb (truthy text) && negb (truthy textGone)
              && negb (Tool.truthyNumber time)); simpl; [done|].
    destruct (truthy textGone); simpl;
      try destruct goneWaitFor as [[]|e1]; simpl; try done;
      destruct (truthy text); simpl;
      try destruct textWaitFor as [[]|e2]; simpl; try done;
      rewrite ?length_app, ?orb_true_r, ?orb_false_r; simpl;
      intros _; split_and!; try done; lia.
Qed.

Local Transparent js.

(** *** The network handlers *)

Lemma addLines_nil (w : World) : addLines [] w = w.
Proof.
  destruct w as [[r co im sn tb ts tn ta er] ctx].
  unfold addLines, set_result. simpl. by rewrite app_nil_r.
Qed.

Lemma addLines_app (l1 l2 : list jsstring) (w : World) :
  addLines l2 (addLines l1 w) = addLines (l1 ++ l2) w.
Proof. unfold addLines, set_result. simpl. by rewrite app_assoc. Qed.

Lemma addResult_addLines (line : jsstring) (w : World) :
  addResult line w = (addLines [line] w, Normal ()).
Proof. done. Qed.

Lemma forEach_addResult {A} (f : A → jsstring) (g : A → M unit)
    (a : list A) :
  (∀ x, g x = addResult (f x)) →
  ∀ w, Tool.forEach g a w = (addLines (map f a) w, Normal ()).
Proof.
  intros Hg. induction a as [|x a IH]; intros w.
  - simpl. unfold ret. by rewrite addLines_nil.
  - cbn [Tool.forEach map]. unfold mbind, M_bind, bind.
    rewrite Hg, addResult_addLines, IH, addLines_app. done.
Qed.

Lemma slice0_length {A} (a : list A) (l : Z) :
  length (slice0 a l)
  = if (l <? 0)%Z then Z.to_nat (Z.max (Z.of_nat (length a) + l) 0)
    else Nat.min (Z.to_nat l) (length a).
Proof.
  unfold slice0. destruct (l <? 0)%Z eqn:Hl; rewrite length_take; [|done].
  apply Z.ltb_lt in Hl. lia.
Qed.

Lemma slice0_sublist {A} (a : list A) (l : Z) : slice0 a l `sublist_of` a.
Proof. unfold slice0. destruct (l <? 0)%Z; apply sublist_take. Qed.

Lemma filter_sublist {A} (f : A → bool) (a : list A) :
  List.filter f a `sublist_of` a.
Proof.
  induction a as [|x a IH]; simpl; [done|].
  destruct (f x); by constructor.
Qed.

Lemma shownRequests_sublist entries method status contentType urlPattern
    limit :
  Tool.shownRequests entries method status contentType urlPattern limit
  `sublist_of`
  List.filter (Tool.requestMatches method status contentType urlPattern)
    entries.
Proof.
  unfold Tool.shownRequests. destruct limit as [l|]; [|done].
  destruct (l =? 0)%Z; [done|]. apply slice0_sublist.
Qed.

(** X20. [browser_network_requests] never throws and only appends to the
    result log: one rendered line per shown request, in the order of the
    request list, then one summary line, which is the "No requests found"
    text exactly when nothing is shown.  The shown requests all pass the
    filters; without a truthy limit they are all the matching requests, and
    with a positive limit they are its first [limit] ones. *)
Theorem requests_outcome (entries : list (Request.t * option NetResponse.t))
    (method : option jsstring) (status : option nat)
    (contentType urlPattern : option jsstring) (limit : option Z)
    (w : World) :
  let matching :=
    List.filter (Tool.requestMatches method status contentType urlPattern)
      entries in
  let shown :=
    Tool.shownRequests entries method status contentType urlPattern limit in
  ∃ summary,
    Tool.requests entries method status contentType urlPattern limit w
    = (addLines (map (λ '(req, res), Tool.renderRequest req res) shown
                 ++ [summary]) w, Normal ()) ∧
    (summary = js "No requests found matching the specified filters."
     ↔ shown = []) ∧
    shown `sublist_of` entries ∧
    Forall (λ e, Tool.requestMatches method status contentType urlPattern e
                 = true) shown ∧
    (limit = None ∨ limit = Some 0%Z → shown = matching) ∧
    (∀ l, limit = Some l → (0 < l)%Z →
       shown = take (Z.to_nat l) matching).
Proof.
  intros matching shown.
  assert (Hsub : shown `sublist_of` matching)
    by apply shownRequests_sublist.
  unfold Tool.requests. fold shown.
  unfold mbind, M_bind, bind.
  rewrite (forEach_addResult (λ '(req, res), Tool.renderRequest req res))
    by (by intros [req res]).
  exists (if length shown =? 0
          then js "No requests found matching the specified filters."
          else 10%N :: js "Showing " ++ showNat (length shown)
               ++ js " request(s). Use browser_network_request_details with the full URL to see details.").
  split.
  - destruct (length shown =? 0); rewrite addResult_addLines, addLines_app;
      reflexivity.
  - split_and!.
    + destruct shown as [|e shown']; [done|].
      cbn [length Nat.eqb]. split; [|done].
      intros Heq. by apply (f_equal head) in Heq.
    + etrans; [exact Hsub|]. apply filter_sublist.
    + apply Forall_forall. intros e He.
      assert (e ∈ matching) as Hin by (by eapply elem_of_sublist).
      apply list_elem_of_In, filter_In in Hin. tauto.
    + subst shown. unfold Tool.shownRequests. by intros [-> | ->].
    + intros l -> Hl. subst shown. unfold Tool.shownRequests, slice0.
      destruct (Z.eqb_spec l 0); [lia|].
      by destruct (Z.ltb_spec l 0); [lia|].
Qed.

(** X21. The filters of [browser_network_requests] treat a request without
    a response unevenly: any non-zero status filter rejects it, while the
    content-type filter is not applied to it at all.  Without any filter
    every request matches. *)
Theorem requestMatches_pending (req : Request.t)
    (method contentType urlPattern : option jsstring) (wanted : nat) :
  Tool.requestMatches method (Some (S wanted)) contentType urlPattern
    (req, None) = false ∧
  Tool.requestMatches method None contentType urlPattern (req, None)
  = Tool.requestMatches method None None urlPattern (req, None) ∧
  (∀ res, Tool.requestMatches None None None None (req, res) = true).
Proof.
  unfold Tool.requestMatches. split_and!.
  - by destruct (truthy method && _).
  - done.
  - intros [res|]; done.
Qed.

Lemma beforeSemicolon_spec (a b : jsstring) :
  59%N ∉ a → beforeSemicolon (a ++ 59%N :: b) = a.
Proof.
  induction a as [|c a IH]; simpl; [done|].
  rewrite not_elem_of_cons. intros [Hc Ha].
  destruct (N.eqb_spec c 59); [done|]. by rewrite IH.
Qed.

Lemma beforeSemicolon_none (a : jsstring) :
  59%N ∉ a → beforeSemicolon a = a.
Proof.
  induction a as [|c a IH]; simpl; [done|].
  rewrite not_elem_of_cons. intros [Hc Ha].
  destruct (N.eqb_spec c 59); [done|]. by rewrite IH.
Qed.

Lemma beforeSemicolon_clean (s : jsstring) : 59%N ∉ beforeSemicolon s.
Proof.
  induction s as [|c s IH]; simpl; [apply not_elem_of_nil|].
  destruct (N.eqb_spec c 59); [apply not_elem_of_nil|].
  rewrite not_elem_of_cons. done.
Qed.

(** X22. [renderRequest] prints [[METHOD] url], then for a request without
    a response the marker [=> [PENDING/FAILED]], and for one with a response
    its status and, when the [content-type] header is truthy, the header up
    to its first semicolon in parentheses, so parameters such as the charset
    are not shown. *)
Theorem renderRequest_shape (request : Request.t) :
  Tool.renderRequest request None
  = js "[" ++ toUpperCase (Request.method request) ++ js "] "
    ++ Request.url request ++ js " " ++ js "=> [PENDING/FAILED]" ∧
  (∀ response mime params,
     header (NetResponse.headers response) (js "content-type")
     = Some (mime ++ 59%N :: params) →
     59%N ∉ mime →
     Tool.renderRequest request (Some response)
     = (js "[" ++ toUpperCase (Request.method request) ++ js "] "
        ++ Request.url request)
       ++ js " "
       ++ (js "=> [" ++ showNat (NetResponse.status response) ++ js "] "
           ++ NetResponse.statusText response)
       ++ js " " ++ (js "(" ++ mime ++ js ")")) ∧
  (∀ response,
     truthy (header (NetResponse.headers response) (js "content-type"))
     = false →
     Tool.renderRequest request (Some response)
     = (js "[" ++ toUpperCase (Request.method request) ++ js "] "
        ++ Request.url request)
       ++ js " "
       ++ (js "=> [" ++ showNat (NetResponse.status response) ++ js "] "
           ++ NetResponse.statusText response)).
Proof.
  unfold Tool.renderRequest. split_and!.
  - cbn [app joinWith]. by rewrite <- !app_assoc.
  - intros response mime params Hct Hmime. rewrite Hct.
    assert (truthy (Some (mime ++ 59%N :: params)) = true) as ->.
    { by destruct mime. }
    cbn [orEmpty]. rewrite beforeSemicolon_spec by done. done.
  - intros response ->. done.
Qed.

Lemma onlyAppends_ret {A} (a : A) : onlyAppends (ret a).
Proof. intros w. exists [], a. unfold ret. by rewrite addLines_nil. Qed.

Lemma onlyAppends_addResult (line : jsstring) : onlyAppends (addResult line).
Proof. intros w. by exists [line], (). Qed.

Lemma onlyAppends_bind {A B} (m : M A) (f : A → M B) :
  onlyAppends m → (∀ a, onlyAppends (f a)) → onlyAppends (m ≫= f).
Proof.
  intros Hm Hf w. unfold mbind, M_bind, bind.
  destruct (Hm w) as (l1 & a & ->). destruct (Hf a (addLines l1 w))
    as (l2 & b & ->).
  exists (l1 ++ l2), b. by rewrite addLines_app.
Qed.

Lemma onlyAppends_forEach {A} (f : A → M unit) (a : list A) :
  (∀ x, onlyAppends (f x)) → onlyAppends (Tool.forEach f a).
Proof.
  intros Hf. induction a as [|x a IH]; cbn [Tool.forEach].
  - apply onlyAppends_ret.
  - apply onlyAppends_bind; [apply Hf|]. by intros _.
Qed.

Lemma appendsOrThrows_only {A} (m : M A) : onlyAppends m → appendsOrThrows m.
Proof. intros Hm w. destruct (Hm w) as (l & a & ->). eauto. Qed.

Lemma appendsOrThrows_lift {A} (c : completion A) : appendsOrThrows (lift c).
Proof. intros w. exists [], c. unfold lift. by rewrite addLines_nil. Qed.

Lemma appendsOrThrows_bind {A B} (m : M A) (f : A → M B) :
  appendsOrThrows m → (∀ a, appendsOrThrows (f a)) →
  appendsOrThrows (m ≫= f).
Proof.
  intros Hm Hf w. unfold mbind, M_bind, bind.
  destruct (Hm w) as (l1 & [a|e] & ->).
  - destruct (Hf a (addLines l1 w)) as (l2 & c & ->).
    exists (l1 ++ l2), c. by rewrite addLines_app.
  - by exists l1, (Throw e).
Qed.

Lemma onlyAppends_tryCatch {A} (body : M A) (handler : exn → M A) :
  appendsOrThrows body → (∀ e, onlyAppends (handler e)) →
  onlyAppends (Tool.tryCatch body handler).
Proof.
  intros Hb Hh w. unfold Tool.tryCatch.
  destruct (Hb w) as (l1 & [a|e] & ->).
  - by exists l1, a.
  - destruct (Hh e (addLines l1 w)) as (l2 & a & ->).
    exists (l1 ++ l2), a. by rewrite addLines_app.
Qed.

Lemma onlyAppends_unit (m : M unit) (w : World) :
  onlyAppends m → ∃ lines, m w = (addLines lines w, Normal ()).
Proof. intros Hm. destruct (Hm w) as (lines & [] & ->). eauto. Qed.

Lemma bodyLine_length (body : jsstring) :
  length (Tool.bodyLine body) ≤ 1016.
Proof.
  unfold Tool.bodyLine. destruct (Nat.ltb_spec 1000 (length body)); [|lia].
  rewrite length_app, length_take. cbn [length]. 
  change (length (js "... (truncated)")) with 15. lia.
Qed.

(** X23. [browser_network_request_details] never throws, not even when
    reading the response body is rejected.  When no request has the URL
    (and the method, if one is given) it records one error line and raises
    the error flag.  When some request matches it only appends result lines
    and leaves the error flag, the code log and the snapshot requests
    alone; with several matches and no method these lines are a heading, one
    line per match and a hint, and no details.  A body line never exceeds
    1016 code units. *)
Theorem requestDetails_outcome
    (entries : list (Request.t * option NetResponse.t))
    (url : jsstring) (method : option jsstring) (w : World) :
  let matching := List.filter (Tool.detailMatches url method) entries in
  (Tool.requestDetails entries url method w).2 = Normal () ∧
  (matching = [] →
   Tool.requestDetails entries url method w
   = addError (js "No request found for URL: " ++ url
               ++ (if truthy method
                   then js " with method " ++ orEmpty method else [])) w) ∧
  (matching ≠ [] →
   ∃ lines,
     Tool.requestDetails entries url method w = (addLines lines w, Normal ())) ∧
  (1 < length matching → truthy method = false →
   Tool.requestDetails entries url method w
   = (addLines
        ([js "Found " ++ showNat (length matching)
          ++ js " requests for this URL with different methods:"]
         ++ map (λ '(req, res),
                   js "- " ++ toUpperCase (Request.method req) ++ js " "
                   ++ Request.url req) matching
         ++ [10%N :: js "Please specify the 'method' parameter to get details for a specific request."])
        w, Normal ())) ∧
  (∀ body, length (Tool.bodyLine body) ≤ 1016).
Proof.
  intros matching.
  assert (Hsome : matching ≠ [] →
    ∃ lines, Tool.requestDetails entries url method w
             = (addLines lines w, Normal ())).
  { intros Hne. unfold Tool.requestDetails. fold matching.
    destruct matching as [|[request responseObj] others] eqn:Hm; [done|].
    apply onlyAppends_unit.
    destruct (_ && _).
    - repeat (apply onlyAppends_bind; [|intros _]);
        try apply onlyAppends_addResult.
      apply onlyAppends_forEach. intros [req res].
      apply onlyAppends_addResult.
    - repeat (apply onlyAppends_bind; [|intros _]);
        try apply onlyAppends_addResult.
      + apply onlyAppends_forEach. intros [key value].
        apply onlyAppends_addResult.
      + destruct (truthy _); [|apply onlyAppends_ret].
        apply onlyAppends_bind; [|intros _]; apply onlyAppends_addResult.
      + destruct responseObj as [responseObj|].
        * repeat (apply onlyAppends_bind; [|intros _]);
            try apply onlyAppends_addResult.
          { apply onlyAppends_forEach. intros [key value].
            apply onlyAppends_addResult. }
          apply onlyAppends_tryCatch;
            [|intros e; apply onlyAppends_addResult].
          cbn zeta. destruct (_ || _);
            [|apply appendsOrThrows_only, onlyAppends_ret].
          apply appendsOrThrows_bind; [apply appendsOrThrows_lift|].
          intros body. apply appendsOrThrows_only.
          destruct (_ && _); [|apply onlyAppends_ret].
          apply onlyAppends_bind; [|intros _];
            apply onlyAppends_addResult.
        * apply onlyAppends_bind; [|intros _];
            apply onlyAppends_addResult. }
  split_and!.
  - destruct matching as [|e others] eqn:Hm.
    + unfold Tool.requestDetails. fold matching. by rewrite Hm.
    + destruct Hsome as (lines & ->); done.
  - intros Hm. unfold Tool.requestDetails. fold matching. by rewrite Hm.
  - exact Hsome.
  - intros Hlen Hmethod. unfold Tool.requestDetails. fold matching.
    destruct matching as [|[request responseObj] others] eqn:Hm;
      [simpl in Hlen; lia|].
    apply Nat.ltb_lt in Hlen. rewrite Hlen, Hmethod. cbn [negb andb].
    unfold mbind, M_bind, bind.
    rewrite addResult_addLines.
    rewrite (forEach_addResult
               (λ '(req, res), js "- " ++ toUpperCase (Request.method req)
                               ++ js " " ++ Request.url req))
      by (by intros [req res]).
    by rewrite addResult_addLines, !addLines_app.
  - apply bodyLine_length.
Qed.

(** *** The extraction handlers *)

Lemma collectLinks_lookup (linkElements : list LinkElement.t) (i : nat)
    (link : Link.t) :
  Tool.collectLinks linkElements !! i = Some link → Link.index link = i.
Proof.
  unfold Tool.collectLinks. rewrite list_lookup_imap.
  destruct (linkElements !! i); [|done]. by intros [= <-].
Qed.

(** X24. [browser_get_all_links] never throws.  When the page evaluation is
    rejected it records one error line and raises the error flag.  Otherwise
    it adds one code line and one result line and leaves the error flag
    alone; the links it renders are the first [limit] ones for a limit that
    is not negative (all of them when there are fewer), the links but the
    last [-limit] ones for a negative limit, and each rendered link carries
    its position in the page as index. *)
Theorem getAllLinks_outcome (evaluate : completion (list LinkElement.t))
    (includeText includeHref : bool) (limit : Z) (w : World) :
  let r := Tool.getAllLinks evaluate includeText includeHref limit w in
  r.2 = Normal () ∧
  (∀ e, evaluate = Throw e →
     r = addError (js "Failed to get links: " ++ errorString e) w) ∧
  (∀ linkElements, evaluate = Normal linkElements →
     let shown := slice0 (Tool.collectLinks linkElements) limit in
     length (_code (accumulator r.1)) = S (length (_code (accumulator w))) ∧
     _result (accumulator r.1)
     = _result (accumulator w)
       ++ [js "Found " ++ showNat (length linkElements)
           ++ js " links (showing first " ++ showNat (length shown)
           ++ js "):" ++ 10%N
           :: joinWith [10%N]
                (map (Tool.renderLink includeText includeHref) shown)] ∧
     _isError (accumulator r.1) = _isError (accumulator w) ∧
     _includeSnapshot (accumulator r.1) = _includeSnapshot (accumulator w) ∧
     length shown
     = (if (limit <? 0)%Z
        then Z.to_nat (Z.max (Z.of_nat (length linkElements) + limit) 0)
        else Nat.min (Z.to_nat limit) (length linkElements)) ∧
     ∀ i link, shown !! i = Some link → Link.index link = i).
Proof.
  destruct w as [[r co im sn tb ts tn ta er] ctx].
  unfold Tool.getAllLinks, Tool.tryCatch.
  unfold mbind, M_bind, bind, lift, addCode, addResult, addError, modifyThis.
  destruct evaluate as [linkElements|e]; cbn -[slice0 Tool.collectLinks].
  - split_and!; [done|done|]. intros ? [= <-].
    assert (Hlen : length (Tool.collectLinks linkElements)
                   = length linkElements).
    { unfold Tool.collectLinks. by rewrite length_imap. }
    rewrite slice0_length, !Hlen, length_app. cbn [length].
    split_and!; try done; [lia|].
    intros i link Hi. apply (collectLinks_lookup linkElements).
    unfold slice0 in Hi.
    destruct (limit <? 0)%Z; by apply lookup_take_Some in Hi as [? _].
  - split_and!; [done| |done]. by intros ? [= <-].
Qed.

Lemma collectRows_filled (maxRows : Z) (rows : list (list (option jsstring))) :
  Forall (λ row, existsb nonEmpty row = true) (Tool.collectRows maxRows rows).
Proof.
  unfold Tool.collectRows. apply Forall_forall. intros row Hrow.
  apply list_elem_of_In, filter_In in Hrow. tauto.
Qed.

Lemma collectRows_length (maxRows : Z)
    (rows : list (list (option jsstring))) :
  length (Tool.collectRows maxRows rows) ≤ length (slice0 rows maxRows).
Proof.
  unfold Tool.collectRows.
  etrans; [apply sublist_length, filter_sublist|]. by rewrite length_map.
Qed.

(** X25. [browser_get_table_data] never throws.  Without a table for the
    selector it records the error [No table found with selector ...]; when
    the page evaluation is rejected it records that failure; in both cases
    the error flag is raised and no code line is added.  With a table it
    adds one code line and one result line.  The rows it reports come from
    the first [maxRows] rows of the table, never more than that many, and
    none of them is made of empty cells only; the result line labels them
    by their position among the reported rows. *)
Theorem getTableData_outcome
    (evaluate : completion (option (list (list (option jsstring)))))
    (selector : jsstring) (includeHeaders : bool) (maxRows : Z) (w : World) :
  let r := Tool.getTableData evaluate selector includeHeaders maxRows w in
  r.2 = Normal () ∧
  (evaluate = Normal None →
   r = addError (js "No table found with selector " ++ 34%N :: selector
                 ++ [34%N]) w) ∧
  (∀ e, evaluate = Throw e →
     r = addError (js "Failed to extract table data: " ++ errorString e) w) ∧
  (∀ rows, evaluate = Normal (Some rows) →
     let tableData := Tool.collectRows maxRows rows in
     length (_code (accumulator r.1)) = S (length (_code (accumulator w))) ∧
     _result (accumulator r.1)
     = _result (accumulator w)
       ++ [js "Table data (" ++ showNat (length tableData) ++ js " rows):"
           ++ 10%N
           :: joinWith [10%N] (imap (Tool.renderRow includeHeaders) tableData)] ∧
     _isError (accumulator r.1) = _isError (accumulator w) ∧
     Forall (λ row, existsb nonEmpty row = true) tableData ∧
     length tableData ≤ length rows ∧
     ((0 ≤ maxRows)%Z → length tableData ≤ Z.to_nat maxRows)).
Proof.
  destruct w as [[r co im sn tb ts tn ta er] ctx].
  unfold Tool.getTableData, Tool.tryCatch.
  unfold mbind, M_bind, bind, lift, addCode, addResult, addError, modifyThis.
  destruct evaluate as [[rows|]|e]; cbn -[Tool.collectRows].
  - split_and!; try done. intros ? [= <-].
    pose proof (collectRows_length maxRows rows) as Hlen.
    rewrite slice0_length in Hlen. rewrite length_app. cbn [length].
    split_and!; try done.
    + lia.
    + apply collectRows_filled.
    + destruct (Z.ltb_spec maxRows 0); lia.
    + intros Hpos. destruct (Z.ltb_spec maxRows 0); lia.
  - split_and!; try done.
  - split_and!; try done. by intros ? [= <-].
Qed.

(** *** The legacy tab listing *)

Lemma tabLines_length (rest : list Tab.t) :
  ∀ i lines, length (tabLines rest i lines) = length lines + length rest.
Proof.
  induction rest as [|tab rest IH]; intros i lines; cbn [tabLines length].
  - lia.
  - rewrite IH, length_app. cbn [length]. lia.
Qed.

Lemma tabLines_head (rest : list Tab.t) :
  ∀ i line lines, head (tabLines rest i (line :: lines)) = Some line.
Proof.
  induction rest as [|tab rest IH]; intros i line lines; cbn [tabLines].
  - done.
  - rewrite <- app_comm_cons. apply IH.
Qed.

(** X26. The legacy [renderTabsMarkdown] is silent exactly when
    [renderTabsJson] is: for one tab without force.  For no tab it gives the
    heading, the same placeholder message as the JSON listing and an empty
    line; otherwise the heading, one line per tab and an empty line. *)
Theorem renderTabsMarkdown_agrees (tabs : list Tab.t) (force : bool) :
  (renderTabsMarkdown tabs force = [] ↔ renderTabsJson tabs force = None) ∧
  (tabs = [] →
   renderTabsMarkdown tabs force = [js "### Open tabs"; noOpenTabsMessage; []]
   ∧ renderTabsJson tabs force
     = Some {| TabsJson.message := Some noOpenTabsMessage;
               TabsJson.tabs := [] |}) ∧
  (renderTabsMarkdown tabs force ≠ [] →
   head (renderTabsMarkdown tabs force) = Some (js "### Open tabs") ∧
   last (renderTabsMarkdown tabs force) = Some [] ∧
   length (renderTabsMarkdown tabs force) = Nat.max 1 (length tabs) + 2).
Proof.
  unfold renderTabsMarkdown, renderTabsJson.
  destruct ((length tabs =? 1) && negb force) eqn:Hsilent.
  { split_and!; try done. intros ->. by destruct force. }
  destruct (Nat.eqb_spec (length tabs) 0) as [Hz|Hnz].
  { apply length_zero_iff_nil in Hz as ->. split_and!; done. }
  split_and!.
  - split; [|done]. intros Heq. apply (f_equal length) in Heq.
    rewrite length_app in Heq. simpl in Heq. lia.
  - intros ->. done.
  - intros _. split_and!.
    + destruct (tabLines tabs 0 [js "### Open tabs"]) as [|l ls] eqn:Hl.
      * apply (f_equal length) in Hl. rewrite tabLines_length in Hl.
        simpl in Hl. lia.
      * pose proof (tabLines_head tabs 0 (js "### Open tabs") []) as Hh.
        rewrite Hl in Hh. done.
    + by rewrite last_snoc.
    + rewrite length_app, tabLines_length. cbn [length]. lia.
Qed.

End HandlerProperties.

(** ** Sample runs of the handlers *)

Lemma scrollTo_outcome_witness :
  scrollWithoutTarget.2 = Normal () ∧
  Response._result (Response.accumulator scrollWithoutTarget.1)
  = [js "Either provide element+ref OR x+y coordinates"].
Proof.
  destruct (@scrollTo_outcome sampleDriver sampleRuntime jsstring
              (Normal (js "e5")) (λ _, Normal ()) sampleGenerate (Normal ())
              None None None (Some (10 : nat)) (js "auto") freshWorld)
    as (Hret & _ & _ & _ & _ & Hmsg).
  split; [exact Hret|]. apply Hmsg; [reflexivity | left; reflexivity].
Defined.

Lemma wait_throws_untouched_witness :
  waitWithoutRef
  = (freshWorld,
     Throw (Error (js "ref parameter is required when element is provided"))).
Proof.
  destruct (@wait_throws_untouched sampleDriver sampleRuntime jsstring
              (Normal ()) (Normal ()) (Normal (js "e5")) (λ _, Normal ())
              sampleGenerate None None None (Some (js "Submit")) None None
              None freshWorld)
    as (_ & Hnoref & _ & _).
  apply Hnoref; reflexivity.
Defined.

Lemma wait_outcome_witness :
  waitTwoSeconds.2 = Normal () ∧
  Response._result (Response.accumulator waitTwoSeconds.1)
  = [js "Waited for 2 seconds"] ∧
  Response._includeSnapshot (Response.accumulator waitTwoSeconds.1) = true ∧
  Response._code (Response.accumulator waitTwoSeconds.1) = [].
Proof.
  assert (Hret : waitTwoSeconds.2 = Normal ()) by (vm_compute; reflexivity).
  destruct (@wait_outcome sampleDriver sampleRuntime jsstring
              (Normal ()) (Normal ()) (Normal (js "e5")) (λ _, Normal ())
              sampleGenerate (Some (2 : nat)) None None None None None None
              freshWorld Hret)
    as (_ & Hsnap & _ & Hcode & Hmsg).
  split_and!.
  - exact Hret.
  - exact (Hmsg eq_refl).
  - exact Hsnap.
  - by apply nil_length_inv.
Defined.

Lemma requests_outcome_witness :
  @Tool.shownRequests sampleRuntime sampleEntries None None None None
    (Some 1%Z)
  = [(usersRequest, Some usersResponse)].
Proof.
  destruct (@requests_outcome sampleDriver sampleRuntime sampleEntries
              None None None None (Some 1%Z) freshWorld)
    as (summary & _ & _ & _ & _ & _ & Htake).
  apply (Htake 1%Z); [reflexivity | lia].
Defined.

Lemma renderRequest_shape_witness :
  @Tool.renderRequest sampleRuntime usersRequest (Some usersResponse)
  = js "[GET] http://localhost:3000/api/users => [200] OK (application/json)".
Proof.
  destruct (@renderRequest_shape sampleRuntime usersRequest)
    as (_ & Hmime & _).
  apply (Hmime usersResponse (js "application/json") (js " charset=utf-8")).
  - reflexivity.
  - apply (bool_decide_unpack _). vm_compute. exact I.
Defined.

Lemma requestDetails_outcome_witness :
  @Tool.requestDetails sampleDriver sampleRuntime sampleEntries
    (js "http://localhost:3000/missing") None freshWorld
  = @Response.addError sampleDriver
      (js "No request found for URL: http://localhost:3000/missing")
      freshWorld.
Proof.
  destruct (@requestDetails_outcome sampleDriver sampleRuntime sampleEntries
              (js "http://localhost:3000/missing") None freshWorld)
    as (_ & Hnone & _).
  apply Hnone. reflexivity.
Defined.

Lemma getAllLinks_outcome_witness :
  let r := @Tool.getAllLinks sampleDriver sampleRuntime (Normal sampleLinks)
             true true 2 freshWorld in
  length (Response._code (Response.accumulator r.1)) = 1 ∧
  length (slice0 (Tool.collectLinks sampleLinks) 2) = 2 ∧
  Response._isError (Response.accumulator r.1) = None.
Proof.
  destruct (@getAllLinks_outcome sampleDriver sampleRuntime
              (Normal sampleLinks) true true 2 freshWorld)
    as (_ & _ & Hlinks).
  destruct (Hlinks sampleLinks eq_refl)
    as (Hcode & _ & Herr & _ & Hshown & _).
  split_and!; [exact Hcode | exact Hshown | exact Herr].
Defined.

Lemma getTableData_outcome_witness :
  let r := @Tool.getTableData sampleDriver sampleRuntime
             (Normal (Some sampleTable)) (js "table") true 2 freshWorld in
  length (Response._code (Response.accumulator r.1)) = 1 ∧
  length (Tool.collectRows 2 sampleTable) ≤ 2 ∧
  Forall (λ row, existsb nonEmpty row = true) (Tool.collectRows 2 sampleTable).
Proof.
  destruct (@getTableData_outcome sampleDriver sampleRuntime
              (Normal (Some sampleTable)) (js "table") true 2 freshWorld)
    as (_ & _ & _ & Hrows).
  destruct (Hrows sampleTable eq_refl)
    as (Hcode & _ & _ & Hfilled & _ & Hmax).
  split_and!; [exact Hcode | apply Hmax; lia | exact Hfilled].
Defined.


Lemma renderTabsMarkdown_agrees_witness :
  renderTabsMarkdown [sampleTab; backgroundTab] false ≠ [] ∧
  length (renderTabsMarkdown [sampleTab; backgroundTab] false) = 4.
Proof.
  assert (Hne : renderTabsMarkdown [sampleTab; backgroundTab] false ≠ [])
    by (vm_compute; discriminate).
  destruct (renderTabsMarkdown_agrees [sampleTab; backgroundTab] false)
    as (_ & _ & Hlist).
  destruct (Hlist Hne) as (_ & _ & Hlen).
  split; [exact Hne | exact Hlen].
Defined.
